(** * Seller-Scraper-Demo: price cleaning and the Amazon/Flipkart matcher

    A shallow embedding of [clean_price] (src/seller.py), [get_keywords],
    [compare_products] and the URL de-duplication of [search] (src/app.py).

    Modelling conventions.
    - A Python [str] is a list of Unicode code points ([pystr]); [u] turns an
      ASCII Rocq string literal into one.
    - Python exceptions are the [Raise] case of the result type [res].
    - A Python float is [pyfloat]: an exact rational, the two infinities or
      NaN.  Rounding to the nearest double is not modelled; overflow of
      [float()] to +/-inf is.
    - A listing dict is the record [listing]; each key is optional
      ([None] = key absent), dict equality is field-wise equality. *)

From Stdlib Require Import List Bool Arith NArith ZArith QArith Qabs Lia.
From Stdlib Require Import Strings.String Strings.Ascii Numbers.DecimalString.
From Stdlib Require Numbers.DecimalN.
Import ListNotations.

Open Scope list_scope.
Open Scope N_scope.

(** ** Python strings *)

Definition pystr := list N.

Fixpoint u (s : string) : pystr :=
  match s with
  | EmptyString => []
  | String c s' => N_of_ascii c :: u s'
  end.

Fixpoint pystr_eqb (s t : pystr) : bool :=
  match s, t with
  | [], [] => true
  | c :: s', d :: t' => N.eqb c d && pystr_eqb s' t'
  | _, _ => false
  end.

(** The Indian rupee sign U+20B9, as written in the regex of [clean_price]. *)
Definition rupee : N := 8377.

(** The three code points the literal [f"â‚¹{...}"] of [compare_products]
    starts with: U+00E2, U+201A, U+00B9 (the file stores the bytes
    C3 A2 E2 80 9A C2 B9). *)
Definition app_currency_prefix : pystr := [226; 8218; 185]%N.

(** ** Python exceptions *)

Inductive exn := KeyError | ValueError | TypeError.

Inductive res (A : Type) : Type :=
| Ok (a : A)
| Raise (e : exn).
Arguments Ok {A} a.
Arguments Raise {A} e.

Definition bind {A B} (m : res A) (k : A -> res B) : res B :=
  match m with
  | Ok a => k a
  | Raise e => Raise e
  end.

Notation "x <- m ;; k" := (bind m (fun x => k))
  (at level 61, m at next level, right associativity).

(** ** Python floats *)

Inductive pyfloat := Fin (q : Q) | PInf | NInf | NaN.

(** Decimal strings of magnitude at least 2^1024 - 2^970 (half way between
    the largest double and 2^1024) overflow to an infinity in [float()]. *)
Definition float_overflow_bound : Q := inject_Z (2 ^ 1024 - 2 ^ 970)%Z.

Definition qltb (x y : Q) : bool := negb (Qle_bool y x).

Definition of_Q (q : Q) : pyfloat :=
  if Qle_bool float_overflow_bound q then PInf
  else if Qle_bool float_overflow_bound (- q) then NInf
  else Fin q.

Definition py_sub (x y : pyfloat) : pyfloat :=
  match x, y with
  | Fin a, Fin b => of_Q (a - b)
  | NaN, _ | _, NaN => NaN
  | PInf, PInf | NInf, NInf => NaN
  | PInf, _ => PInf
  | NInf, _ => NInf
  | _, PInf => NInf
  | _, NInf => PInf
  end.

Definition py_abs (x : pyfloat) : pyfloat :=
  match x with
  | Fin a => Fin (Qabs a)
  | NInf => PInf
  | f => f
  end.

Definition py_lt (x y : pyfloat) : bool :=
  match x, y with
  | Fin a, Fin b => qltb a b
  | NaN, _ | _, NaN => false
  | NInf, NInf | PInf, _ => false
  | NInf, _ => true
  | Fin _, PInf => true
  | Fin _, NInf => false
  end.

(** [x != float('inf')] *)
Definition is_pinf (x : pyfloat) : bool :=
  match x with PInf => true | _ => false end.

(** ** [str.strip] and [float(str)] *)

(** Code points for which Python's [str.isspace] holds. *)
Definition py_isspace (c : N) : bool :=
  ((9 <=? c) && (c <=? 13)) || ((28 <=? c) && (c <=? 32)) ||
  (c =? 133) || (c =? 160) || (c =? 5760) ||
  ((8192 <=? c) && (c <=? 8202)) || (c =? 8232) || (c =? 8233) ||
  (c =? 8239) || (c =? 8287) || (c =? 12288).

Fixpoint lstrip (s : pystr) : pystr :=
  match s with
  | c :: s' => if py_isspace c then lstrip s' else s
  | [] => []
  end.

Definition strip (s : pystr) : pystr := rev (lstrip (rev (lstrip s))).

(** [float()] accepts every Unicode decimal digit.  The table lists the
    first code point of the digit blocks of ASCII, Arabic, the Indian
    scripts, Thai, Lao, Tibetan, Myanmar, Khmer, Mongolian and the
    full-width forms. *)
Definition decimal_digit_bases : list N :=
  [48; 1632; 1776; 1984; 2406; 2534; 2662; 2790; 2918; 3046; 3174; 3302;
   3430; 3558; 3664; 3792; 3872; 4160; 4240; 6112; 6160; 65296]%N.

Definition digit_value (c : N) : option N :=
  let fix go (bs : list N) :=
    match bs with
    | [] => None
    | b :: bs' => if (b <=? c) && (c <? b + 10) then Some (c - b) else go bs'
    end in
  go decimal_digit_bases.

(** Digits of a [digitpart] after its first one: single underscores may
    separate digits (PEP 515).  Returns the accumulated mantissa, the number
    of digits read and the rest of the input. *)
Fixpoint digits_tail (acc : Z) (k : nat) (s : pystr) : Z * nat * pystr :=
  match s with
  | c :: s' =>
      match digit_value c with
      | Some d => digits_tail (acc * 10 + Z.of_N d) (S k) s'
      | None =>
          if N.eqb c 95 then
            match s' with
            | c' :: s'' =>
                match digit_value c' with
                | Some d => digits_tail (acc * 10 + Z.of_N d) (S k) s''
                | None => (acc, k, s)
                end
            | [] => (acc, k, s)
            end
          else (acc, k, s)
      end
  | [] => (acc, k, s)
  end.

Definition digitpart (acc : Z) (s : pystr) : option (Z * nat * pystr) :=
  match s with
  | c :: s' =>
      match digit_value c with
      | Some d => Some (digits_tail (acc * 10 + Z.of_N d) 1 s')
      | None => None
      end
  | [] => None
  end.

(** [number ::= digitpart ["." [digitpart]] | "." digitpart]; the result is
    the mantissa, the number of fraction digits and the rest. *)
Definition number (s : pystr) : option (Z * nat * pystr) :=
  match s with
  | c :: rest =>
      if N.eqb c 46 then digitpart 0 rest
      else
        match digitpart 0 s with
        | None => None
        | Some (m, _, r) =>
            match r with
            | c' :: r' =>
                if N.eqb c' 46 then
                  match digitpart m r' with
                  | Some (m', k, r'') => Some (m', k, r'')
                  | None => Some (m, 0%nat, r')
                  end
                else Some (m, 0%nat, r)
            | [] => Some (m, 0%nat, r)
            end
        end
  | [] => None
  end.

Definition sign (s : pystr) : Z * pystr :=
  match s with
  | c :: s' =>
      if N.eqb c 43 then (1%Z, s') else if N.eqb c 45 then ((-1)%Z, s') else (1%Z, s)
  | [] => (1%Z, s)
  end.

(** [float(s)] for a [str] argument.  The spellings with letters
    ("inf", "nan", exponents) are left out: [clean_price] removes every
    ASCII letter before calling [float], and CPython turns any other
    non-ASCII character that is neither a digit nor a space into one that
    fails to parse. *)
Definition py_float_str (s : pystr) : res pyfloat :=
  let t := strip s in
  let '(sg, t') := sign t in
  match number t' with
  | Some (m, k, []) => Ok (of_Q (Qmake (sg * m) (Z.to_pos (10 ^ Z.of_nat k))))
  | _ => Raise ValueError
  end.

(** ** [clean_price] (src/seller.py) *)

(** The Python values a price can be: a [str], [None] or a number. *)
Inductive pyval := VStr (s : pystr) | VNone | VNum (z : Z).

(** The character class [[₹,A-Za-z]]. *)
Definition price_junk (c : N) : bool :=
  (c =? rupee) || (c =? 44) || ((65 <=? c) && (c <=? 90)) ||
  ((97 <=? c) && (c <=? 122)).

(** [re.sub(r'[₹,A-Za-z]', '', price_str).strip()] *)
Definition cleaned (s : pystr) : pystr :=
  strip (filter (fun c => negb (price_junk c)) s).

Definition clean_price (price_str : pyval) : res pyfloat :=
  match price_str with
  | VStr s =>
      if pystr_eqb s (u "N/A") then Ok PInf
      else
        match py_float_str (cleaned s) with
        | Ok f => Ok f
        | Raise ValueError | Raise TypeError => Ok PInf
        | Raise e => Raise e
        end
  | _ => Ok PInf
  end.

(** ** Format spec [",.2f"] *)

Definition round_half_even (q : Q) : Z :=
  let n := Qnum q in
  let d := Zpos (Qden q) in
  let fl := (n / d)%Z in
  let r := (n - fl * d)%Z in
  match Z.compare (2 * r) d with
  | Lt => fl
  | Gt => fl + 1
  | Eq => if Z.even fl then fl else fl + 1
  end.

Definition decimal_digits (n : N) : pystr :=
  u (NilZero.string_of_uint (N.to_uint n)).

Fixpoint commas_rev (k : nat) (ds : pystr) : pystr :=
  match ds with
  | [] => []
  | d :: ds' =>
      if Nat.eqb k 3 then 44%N :: d :: commas_rev 1 ds'
      else d :: commas_rev (S k) ds'
  end.

Definition group_thousands (ds : pystr) : pystr := rev (commas_rev 0 (rev ds)).

Definition format_fixed2 (q : Q) : pystr :=
  let n := Z.to_N (round_half_even (Qabs q * 100)) in
  let ip := (n / 100)%N in
  let fp := (n mod 100)%N in
  (if qltb q 0 then [45%N] else []) ++
  group_thousands (decimal_digits ip) ++
  [46%N; 48 + fp / 10; 48 + fp mod 10]%N.

Definition format_money (x : pyfloat) : pystr :=
  match x with
  | Fin q => format_fixed2 q
  | PInf => u "inf"
  | NInf => u "-inf"
  | NaN => u "nan"
  end.

(** ** Listings *)

(** A listing dict as built by the scrapers; [None] is an absent key. *)
Record listing := mk_listing {
  name : option pystr;
  price : option pyval;
  seller : option pystr;
  image_url : option pystr;
  product_url : option pystr;
  source : option pystr
}.

Definition opt_eqb {A} (eqb : A -> A -> bool) (x y : option A) : bool :=
  match x, y with
  | Some a, Some b => eqb a b
  | None, None => true
  | _, _ => false
  end.

Definition pyval_eqb (x y : pyval) : bool :=
  match x, y with
  | VStr s, VStr t => pystr_eqb s t
  | VNone, VNone => true
  | VNum a, VNum b => Z.eqb a b
  | _, _ => false
  end.

(** Dict equality [==], as used by [list.remove]. *)
Definition listing_eqb (p q : listing) : bool :=
  opt_eqb pystr_eqb (name p) (name q) && opt_eqb pyval_eqb (price p) (price q) &&
  opt_eqb pystr_eqb (seller p) (seller q) &&
  opt_eqb pystr_eqb (image_url p) (image_url q) &&
  opt_eqb pystr_eqb (product_url p) (product_url q) &&
  opt_eqb pystr_eqb (source p) (source q).

(** [item.get('price', 'N/A')] *)
Definition get_price (p : listing) : pyval :=
  match price p with
  | Some v => v
  | None => VStr (u "N/A")
  end.

(** ** [get_keywords]: [set(re.findall(r'\b\w+\b', name.lower()))] *)

(** [str.lower] on ASCII and Latin-1 capitals. *)
Definition py_lower_char (c : N) : N :=
  if ((65 <=? c) && (c <=? 90)) || ((192 <=? c) && (c <=? 222) && negb (c =? 215))
  then c + 32 else c.

(** [\w]: ASCII letters, digits and underscore, the Latin-1 letters and
    numerals, and the decimal digits of [decimal_digit_bases]; other
    non-ASCII characters are not tabulated and count as separators. *)
Definition is_word (c : N) : bool :=
  ((48 <=? c) && (c <=? 57)) || ((65 <=? c) && (c <=? 90)) ||
  ((97 <=? c) && (c <=? 122)) || (c =? 95) ||
  (c =? 170) || (c =? 178) || (c =? 179) || (c =? 181) || (c =? 185) ||
  (c =? 186) || ((188 <=? c) && (c <=? 190)) ||
  ((192 <=? c) && (c <=? 255) && negb (c =? 215) && negb (c =? 247)) ||
  match digit_value c with Some _ => true | None => false end.

(** [re.findall(r'\b\w+\b', s)]: the maximal runs of word characters;
    [cur] is the current run, reversed. *)
Fixpoint findall_words (cur : pystr) (s : pystr) : list pystr :=
  match s with
  | [] => match cur with [] => [] | _ => [rev cur] end
  | c :: s' =>
      if is_word c then findall_words (c :: cur) s'
      else match cur with
           | [] => findall_words [] s'
           | _ => rev cur :: findall_words [] s'
           end
  end.

Definition mem (w : pystr) (ws : list pystr) : bool := existsb (pystr_eqb w) ws.

(** [set(xs)]: duplicates collapse. *)
Fixpoint py_set (xs : list pystr) : list pystr :=
  match xs with
  | [] => []
  | x :: xs' => let s := py_set xs' in if mem x s then s else x :: s
  end.

Definition get_keywords (name : pystr) : list pystr :=
  py_set (findall_words [] (map py_lower_char name)).

Definition kw_inter (a b : list pystr) : list pystr := filter (fun w => mem w b) a.

Definition kw_union (a b : list pystr) : list pystr :=
  a ++ filter (fun w => negb (mem w a)) b.

(** [intersection / union if union > 0 else 0].  Similarities are compared
    as exact rationals: two different fractions whose denominators are
    below 2^26 stay different, and in the same order, as doubles. *)
Definition similarity (akw fkw : list pystr) : Q :=
  let intersection := List.length (kw_inter akw fkw) in
  let union := List.length (kw_union akw fkw) in
  if Nat.ltb 0 union then Qmake (Z.of_nat intersection) (Pos.of_nat union) else 0.

(** ** [compare_products] (src/app.py) *)

(** An entry of [flipkart_list_copy]: the listing and, as ghost data, its
    position in [flipkart_list]. *)
Definition entry := (nat * listing)%type.

(** The inner [for flipkart_item in flipkart_list_copy] loop, from the
    state [(best_match, highest_similarity)]. *)
Fixpoint scan (akw : list pystr) (pool : list entry) (best_match : option entry)
    (highest_similarity : Q) : res (option entry * Q) :=
  match pool with
  | [] => Ok (best_match, highest_similarity)
  | e :: pool' =>
      match name (snd e) with
      | None => Raise KeyError
      | Some n =>
          let similarity := similarity akw (get_keywords n) in
          if qltb highest_similarity similarity
          then scan akw pool' (Some e) similarity
          else scan akw pool' best_match highest_similarity
      end
  end.

(** [list.remove(x)]: drops the first element equal to [x], [ValueError]
    when there is none. *)
Fixpoint py_remove (x : listing) (pool : list entry) : res (list entry) :=
  match pool with
  | [] => Raise ValueError
  | e :: pool' =>
      if listing_eqb (snd e) x then Ok pool'
      else r <- py_remove x pool';; Ok (e :: r)
  end.

(** A dict appended to [comparisons]; [flipkart_product] keeps the ghost
    position of the matched Flipkart listing. *)
Record comparison := mk_comparison {
  amazon_product : listing;
  flipkart_product : entry;
  price_difference : pystr;
  best_deal : pystr
}.

Definition deal_of (amazon_price flipkart_price : pyfloat) : pystr :=
  if py_lt amazon_price flipkart_price then u "Amazon"
  else if py_lt flipkart_price amazon_price then u "Flipkart"
  else u "Both have the same price".

(** One iteration of [for amazon_item in amazon_list], on the current
    [flipkart_list_copy]; the second component is the copy afterwards.
    [0.2] is compared as [1/5] (see [similarity]). *)
Definition compare_one (pool : list entry) (amazon_item : listing)
    : res (option comparison * list entry) :=
  match name amazon_item with
  | None => Raise KeyError
  | Some an =>
      r <- scan (get_keywords an) pool None 0;;
      let '(best_match, highest_similarity) := r in
      match best_match with
      | Some b =>
          if qltb (1 # 5) highest_similarity then
            amazon_price <- clean_price (get_price amazon_item);;
            flipkart_price <- clean_price (get_price (snd b));;
            if negb (is_pinf amazon_price) && negb (is_pinf flipkart_price) then
              pool' <- py_remove (snd b) pool;;
              Ok (Some (mk_comparison amazon_item b
                         (app_currency_prefix ++
                          format_money (py_abs (py_sub amazon_price flipkart_price)))
                         (deal_of amazon_price flipkart_price)), pool')
            else Ok (None, pool)
          else Ok (None, pool)
      | None => Ok (None, pool)
      end
  end.

Fixpoint compare_loop (amazon_list : list listing) (pool : list entry)
    : res (list comparison) :=
  match amazon_list with
  | [] => Ok []
  | a :: rest =>
      r <- compare_one pool a;;
      let '(oc, pool') := r in
      cs <- compare_loop rest pool';;
      Ok (match oc with Some c => c :: cs | None => cs end)
  end.

(** [list(flipkart_list)], each listing tagged with its position. *)
Definition enumerate (l : list listing) : list entry := combine (seq 0 (List.length l)) l.

Definition compare_products (amazon_list flipkart_list : list listing)
    : res (list comparison) :=
  compare_loop amazon_list (enumerate flipkart_list).

(** ** URL de-duplication in [search] *)

(** [d[k] = v] on a dict kept in insertion order: an existing key keeps its
    place and takes the new value, a new key goes last. *)
Fixpoint dict_set {V} (k : pystr) (v : V) (d : list (pystr * V)) : list (pystr * V) :=
  match d with
  | [] => [(k, v)]
  | (k', v') :: d' => if pystr_eqb k k' then (k', v) :: d' else (k', v') :: dict_set k v d'
  end.

(** One turn of the comprehension: [d[p['product_url']] = p] when the key
    is present. *)
Definition url_step (d : list (pystr * listing)) (p : listing) : list (pystr * listing) :=
  match product_url p with
  | Some k => dict_set k p d
  | None => d
  end.

(** [list({p['product_url']: p for p in results if 'product_url' in p}.values())] *)
Definition unique_by_url (results : list listing) : list listing :=
  map snd (fold_left url_step results []).

(** ** [str] helpers used by the scrapers *)

Fixpoint starts_with (p s : pystr) : bool :=
  match p, s with
  | [], _ => true
  | c :: p', d :: s' => N.eqb c d && starts_with p' s'
  | _ :: _, [] => false
  end.

(** [p in s] *)
Fixpoint py_contains (p s : pystr) : bool :=
  starts_with p s ||
  match s with
  | [] => false
  | _ :: s' => py_contains p s'
  end.

(** [s.replace(old, new)]: left to right, non-overlapping.  [fuel] bounds
    the number of steps; every step consumes at least one character when
    [old] is non-empty, the only case in this program. *)
Fixpoint replace_fuel (fuel : nat) (old new s : pystr) : pystr :=
  match fuel with
  | O => s
  | S f =>
      match s with
      | [] => []
      | c :: s' =>
          if starts_with old s then new ++ replace_fuel f old new (skipn (List.length old) s)
          else c :: replace_fuel f old new s'
      end
  end.

Definition py_replace (old new s : pystr) : pystr :=
  replace_fuel (S (List.length s)) old new s.

(** ** BeautifulSoup tags *)

(** A tag: its text strings (in document order) and its attributes. *)
Record tag := mk_tag {
  tag_strings : list pystr;
  tag_attrs : list (pystr * pystr)
}.

(** [tag.get_text()] *)
Definition get_text (t : tag) : pystr := List.concat (tag_strings t).

(** [tag.get_text(strip=True)]: each string stripped, empty ones dropped. *)
Definition get_text_strip (t : tag) : pystr :=
  List.concat (filter (fun s => negb (Nat.eqb (List.length s) 0)) (map strip (tag_strings t))).

(** [tag.get(k)]; [None] when the attribute is absent. *)
Definition tag_get (t : tag) (k : pystr) : option pystr :=
  match find (fun kv => pystr_eqb (fst kv) k) (tag_attrs t) with
  | Some kv => Some (snd kv)
  | None => None
  end.

Definition has_attr (t : tag) (k : pystr) : bool :=
  match tag_get t k with Some _ => true | None => false end.

(** A product card, seen through [card.select_one(selector)], which may
    raise (an invalid selector). *)
Definition card := pystr -> res (option tag).

(** [find_with_fallbacks(element, selectors)].  A bs4 [Tag] is always truthy,
    so [if found] holds exactly for a found tag; every exception of
    [select_one] is caught by [except Exception]. *)
Fixpoint find_with_fallbacks (element : card) (selectors : list pystr) : option tag :=
  match selectors with
  | [] => None
  | selector :: rest =>
      match element selector with
      | Ok (Some found) => Some found
      | Ok None | Raise _ => find_with_fallbacks element rest
      end
  end.

(** ** Selector tables *)

(** ** Selector tables ([AMAZON_SELECTORS], [FLIPKART_SELECTORS]) *)

Definition amazon_name : list pystr := [u "span.a-text-normal"].
Definition amazon_price : list pystr := [u "span.a-price-whole"].
Definition amazon_seller : list pystr := [u "div.a-row.a-size-base.a-color-secondary"].
Definition amazon_image : list pystr := [u "img.s-image"].
Definition amazon_link : list pystr := [u "a.a-link-normal"].

Definition flipkart_name : list pystr := [u "._4rR01T"; u ".s1Q9rs"].
Definition flipkart_price : list pystr := [u "._30jeq3"].
Definition flipkart_image : list pystr := [u "._396cs4"].
Definition flipkart_link : list pystr := [u "._1fQZEK"; u "a._2UzuFa"].

(** ** One product card to one result dict *)

(** The body of the [for card in product_cards] loop of
    [scrape_amazon_seller]: [Some d] when [d] is appended.  The value of
    [image_el.get('src')] is Python [None] when the image has no [src];
    it is kept as [image_url := None] (the dict always has the key, and no
    code reads that value). *)
Definition amazon_card_record (c : card) : option listing :=
  let name_el := find_with_fallbacks c amazon_name in
  let price_el := find_with_fallbacks c amazon_price in
  let seller_el := find_with_fallbacks c amazon_seller in
  let image_el := find_with_fallbacks c amazon_image in
  let link_el := find_with_fallbacks c amazon_link in
  let name := match name_el with Some t => get_text_strip t | None => u "N/A" end in
  let price := match price_el with Some t => rupee :: get_text_strip t | None => u "N/A" end in
  let seller :=
    match seller_el with
    | Some t =>
        if py_contains (u "Sold by") (get_text t)
        then py_replace (u "Sold by ") [] (get_text_strip t)
        else u "Amazon"
    | None => u "Amazon"
    end in
  let image_url := match image_el with Some t => tag_get t (u "src") | None => Some (u "N/A") end in
  let product_url :=
    match link_el with
    | Some t =>
        if has_attr t (u "href")
        then match tag_get t (u "href") with
             | Some href => u "https://www.amazon.in" ++ href
             | None => u "N/A"
             end
        else u "N/A"
    | None => u "N/A"
    end in
  if negb (pystr_eqb name (u "N/A")) && negb (pystr_eqb product_url (u "N/A"))
  then Some (mk_listing (Some name) (Some (VStr price)) (Some seller) image_url
                        (Some product_url) (Some (u "Amazon")))
  else None.

(** The body of the [for card in product_cards] loop of
    [scrape_flipkart_seller]. *)
Definition flipkart_card_record (c : card) : option listing :=
  let name_el := find_with_fallbacks c flipkart_name in
  let price_el := find_with_fallbacks c flipkart_price in
  let image_el := find_with_fallbacks c flipkart_image in
  let link_el := find_with_fallbacks c flipkart_link in
  let name := match name_el with Some t => get_text_strip t | None => u "N/A" end in
  let price := match price_el with Some t => rupee :: get_text_strip t | None => u "N/A" end in
  let image_url := match image_el with Some t => tag_get t (u "src") | None => Some (u "N/A") end in
  let product_url :=
    match link_el with
    | Some t =>
        if has_attr t (u "href")
        then match tag_get t (u "href") with
             | Some href => u "https://www.flipkart.com" ++ href
             | None => u "N/A"
             end
        else u "N/A"
    | None => u "N/A"
    end in
  if negb (pystr_eqb name (u "N/A")) && negb (pystr_eqb product_url (u "N/A"))
  then Some (mk_listing (Some name) (Some (VStr price)) (Some (u "Flipkart")) image_url
                        (Some product_url) (Some (u "Flipkart")))
  else None.

(** ** The scrapers *)






(** [scrape_amazon_seller(product_name)]: the screenshot and [driver.quit()]
    have no effect on the result. *)
Definition amazon_search_query (product_name : pystr) : pystr :=
  py_replace (u " ") (u "+") product_name.


(** [scrape_flipkart_seller(product_name)]; [time.sleep(10)] is not
    observable. *)
Definition flipkart_search_query (product_name : pystr) : pystr :=
  py_replace (u " ") (u "%20") product_name.


(** ** The [/search] route *)



(** ** Predicates for the further properties *)

(** [element.select_one(selector)] finds nothing or raises. *)
Definition select_misses (element : card) (selector : pystr) : Prop :=
  element selector = Ok None \/ exists e, element selector = Raise e.




(** [l] is a subsequence of [l'] (the order is kept). *)
Inductive subseq {A} : list A -> list A -> Prop :=
| subseq_nil : subseq [] []
| subseq_take x l l' : subseq l l' -> subseq (x :: l) (x :: l')
| subseq_skip x l l' : subseq l l' -> subseq l (x :: l').

(** ** Concrete inputs *)

Definition listing_np (n : string) (p : pyval) : listing :=
  mk_listing (Some (u n)) (Some p) None None None None.

Definition inr_price (digits : string) : pyval := VStr (rupee :: u digits).

(** ** The properties, stated from the spec *)

Definition has_name (p : listing) : bool :=
  match name p with Some _ => true | None => false end.

(** A pool entry whose dict has a [name] key. *)
Definition named_entry (e : entry) : Prop := has_name (snd e) = true.

(** The keyword set of a listing's name. *)
Definition kw_of (p : listing) : list pystr :=
  match name p with Some n => get_keywords n | None => [] end.

(** The Jaccard similarity of a pool entry to the keyword set [akw]. *)
Definition sim_of (akw : list pystr) (e : entry) : Q :=
  match name (snd e) with
  | Some n => similarity akw (get_keywords n)
  | None => 0
  end.

(** [e], at position [i] of [pool], has the greatest similarity of the pool,
    and every earlier entry a strictly smaller one: the earliest entry of
    greatest similarity. *)
Definition first_best (akw : list pystr) (pool : list entry) (i : nat) (e : entry) : Prop :=
  nth_error pool i = Some e /\
  (forall j e', (j < i)%nat -> nth_error pool j = Some e' -> (sim_of akw e' < sim_of akw e)%Q) /\
  (forall j e', nth_error pool j = Some e' -> (sim_of akw e' <= sim_of akw e)%Q).

(** The pool without its [i]-th entry. *)
Definition remove_nth (i : nat) (pool : list entry) : list entry :=
  firstn i pool ++ skipn (S i) pool.

(** The positions in [flipkart_list] of the matched Flipkart listings. *)
Definition matched_positions (cs : list comparison) : list nat :=
  map (fun c => fst (flipkart_product c)) cs.

(** The distinct product URLs of [results], in order of first occurrence. *)
Definition first_urls_step (us : list pystr) (p : listing) : list pystr :=
  match product_url p with
  | Some k => if mem k us then us else us ++ [k]
  | None => us
  end.

Definition first_urls (results : list listing) : list pystr :=
  fold_left first_urls_step results [].

(** The last listing of [results] whose product URL is [k]. *)
Definition last_with (k : pystr) (results : list listing) : option listing :=
  fold_left (fun r p => if opt_eqb pystr_eqb (product_url p) (Some k) then Some p else r)
    results None.

Definition listing_url (n url : string) : listing :=
  mk_listing (Some (u n)) (Some (inr_price "100")) None None (Some (u url)) None.

(** "-1" followed by 400 zeros: [float] overflows it to [-inf]. *)
Definition huge_negative_price : pyval := VStr (u "-1" ++ repeat 48%N 400).

Definition iphone_a : listing := listing_np "iPhone 15 128GB" (inr_price "79,999").

Definition iphone_b : listing := listing_np "Apple iPhone 15 (128GB)" (inr_price "78,500").

(** Two equal Amazon dicts and two equal Flipkart dicts. *)
Definition demo_amazon : list listing := [iphone_a; iphone_a].

Definition demo_flipkart : list listing := [iphone_b; iphone_b].

Definition demo_comparisons : list comparison :=
  Eval vm_compute in
    match compare_products demo_amazon demo_flipkart with Ok cs => cs | Raise _ => [] end.

(** Listings for the remaining claims. *)
Definition nameless : listing :=
  mk_listing None (Some (inr_price "100")) None None None None.

Definition overflow_amazon : listing := listing_np "Samsung TV" huge_negative_price.

Definition tv_flipkart : listing := listing_np "Samsung TV" (inr_price "50,000").

Definition tv_x_a : listing := listing_np "tv x" (inr_price "100").

Definition tv_x_na : listing := listing_np "tv x" (VStr (u "N/A")).

Definition tv_y_b : listing := listing_np "tv y" (inr_price "50").

Definition url_x1 : listing := listing_url "first x" "https://x".

Definition url_y : listing := listing_url "y" "https://y".

Definition url_x2 : listing := listing_url "second x" "https://x".

(** A search page with one Amazon-style card: a name, an invalid price
    selector, a link, and no seller or image. *)
Definition demo_card : card :=
  fun sel =>
    if pystr_eqb sel (u "span.a-text-normal") then Ok (Some (mk_tag [u " iPhone 15 "; u "(128 GB)"] []))
    else if pystr_eqb sel (u "span.a-price-whole") then Raise ValueError
    else if pystr_eqb sel (u "a.a-link-normal") then Ok (Some (mk_tag [] [(u "href", u "/dp/B0C")]))
    else if pystr_eqb sel (u "._4rR01T") then Ok None
    else if pystr_eqb sel (u ".s1Q9rs") then Ok (Some (mk_tag [u "iPhone 15"] []))
    else if pystr_eqb sel (u "._30jeq3") then Ok (Some (mk_tag [u "79,999"] []))
    else if pystr_eqb sel (u "a._2UzuFa") then Ok (Some (mk_tag [] [(u "href", u "/p/itm1")]))
    else Ok None.



(** * Proofs *)

Lemma pystr_eqb_eq s t : pystr_eqb s t = true <-> s = t.
Proof.
  revert t; induction s as [|c s IH]; intros [|d t]; simpl;
    try (split; congruence).
  rewrite andb_true_iff, N.eqb_eq, IH. split.
  - intros [-> ->]; reflexivity.
  - intros H; injection H; auto.
Qed.

Lemma pystr_eqb_refl s : pystr_eqb s s = true.
Proof. apply pystr_eqb_eq; reflexivity. Qed.

Lemma opt_eqb_refl {A} (eqb : A -> A -> bool) x :
  (forall a, eqb a a = true) -> opt_eqb eqb x x = true.
Proof. destruct x; simpl; auto. Qed.

Lemma pyval_eqb_refl v : pyval_eqb v v = true.
Proof. destruct v; simpl; auto using pystr_eqb_refl, Z.eqb_refl. Qed.

Lemma listing_eqb_refl p : listing_eqb p p = true.
Proof.
  unfold listing_eqb.
  repeat rewrite opt_eqb_refl by auto using pystr_eqb_refl, pyval_eqb_refl.
  reflexivity.
Qed.

Lemma listing_eqb_name p q : listing_eqb p q = true -> name p = name q.
Proof.
  unfold listing_eqb; rewrite !andb_true_iff; intros [[[[[H _] _] _] _] _].
  destruct (name p), (name q); simpl in H; try discriminate; auto.
  apply pystr_eqb_eq in H; subst; reflexivity.
Qed.

Lemma qltb_lt x y : qltb x y = true <-> (x < y)%Q.
Proof.
  unfold qltb; rewrite negb_true_iff; split; intros H.
  - apply Qnot_le_lt; intros H'; apply Qle_bool_iff in H'; congruence.
  - destruct (Qle_bool y x) eqn:E; auto.
    apply Qle_bool_iff in E; exfalso; apply (Qlt_not_le _ _ H E).
Qed.

Lemma qltb_ge x y : qltb x y = false -> (y <= x)%Q.
Proof.
  unfold qltb; rewrite negb_false_iff; apply Qle_bool_iff.
Qed.

Lemma similarity_nonneg akw fkw : (0 <= similarity akw fkw)%Q.
Proof.
  unfold similarity; destruct (Nat.ltb 0 _).
  - unfold Qle; simpl; lia.
  - apply Qle_refl.
Qed.

Lemma sim_of_nonneg akw e : (0 <= sim_of akw e)%Q.
Proof. unfold sim_of; destruct (name (snd e)); auto using similarity_nonneg, Qle_refl. Qed.

(** ** The inner loop: [scan] *)

Lemma sim_of_cons akw e n :
  name (snd e) = Some n -> sim_of akw e = similarity akw (get_keywords n).
Proof. intros H; unfold sim_of; rewrite H; reflexivity. Qed.

(** Either the running best survives the scan, every entry being at most
    [hs], or the result is an entry strictly above [hs] that is the earliest
    entry of greatest similarity. *)
Lemma scan_cases akw pool best hs r :
  scan akw pool best hs = Ok r ->
  (r = (best, hs) /\
   forall j e', nth_error pool j = Some e' -> (sim_of akw e' <= hs)%Q) \/
  (exists i e, r = (Some e, sim_of akw e) /\ (hs < sim_of akw e)%Q /\
               first_best akw pool i e).
Proof.
  revert best hs; induction pool as [|e pool IH]; intros best hs H; simpl in H.
  - left. injection H as <-. split; [reflexivity|]. intros [|j] e' He'; discriminate.
  - destruct (name (snd e)) as [n|] eqn:En; [|discriminate].
    rewrite <- (sim_of_cons akw e n En) in H.
    destruct (qltb hs (sim_of akw e)) eqn:Hq.
    + apply qltb_lt in Hq.
      destruct (IH _ _ H) as [[-> Hle] | (i & e' & -> & Hlt & Hi & Hbef & Hall)].
      * right. exists 0%nat, e. split; [reflexivity|]. split; [exact Hq|].
        split; [reflexivity|]. split.
        -- intros j e' Hj; lia.
        -- intros [|j] e' He'; simpl in He'.
           ++ injection He' as <-; apply Qle_refl.
           ++ exact (Hle j e' He').
      * right. exists (S i), e'. split; [reflexivity|].
        split; [eapply Qlt_trans; eauto|]. split; [exact Hi|]. split.
        -- intros [|j] e'' Hj He''; simpl in He''.
           ++ injection He'' as <-; exact Hlt.
           ++ apply (Hbef j); [lia | exact He''].
        -- intros [|j] e'' He''; simpl in He''.
           ++ injection He'' as <-; apply Qlt_le_weak; exact Hlt.
           ++ exact (Hall j e'' He'').
    + apply qltb_ge in Hq.
      destruct (IH _ _ H) as [[-> Hle] | (i & e' & -> & Hlt & Hi & Hbef & Hall)].
      * left. split; [reflexivity|].
        intros [|j] e'' He''; simpl in He''.
        -- injection He'' as <-; exact Hq.
        -- exact (Hle j e'' He'').
      * right. exists (S i), e'. split; [reflexivity|]. split; [exact Hlt|].
        split; [exact Hi|]. split.
        -- intros [|j] e'' Hj He''; simpl in He''.
           ++ injection He'' as <-; eapply Qle_lt_trans; eauto.
           ++ apply (Hbef j); [lia | exact He''].
        -- intros [|j] e'' He''; simpl in He''.
           ++ injection He'' as <-; apply Qlt_le_weak; eapply Qle_lt_trans; eauto.
           ++ exact (Hall j e'' He'').
Qed.

Lemma scan_total akw pool best hs :
  Forall named_entry pool -> exists r, scan akw pool best hs = Ok r.
Proof.
  revert best hs; induction pool as [|e pool IH]; intros best hs H; simpl.
  - eauto.
  - inversion H as [|? ? He Hrest]; subst. unfold named_entry, has_name in He.
    destruct (name (snd e)); [|discriminate].
    destruct (qltb _ _); apply IH; exact Hrest.
Qed.

Lemma scan_raises akw pool best hs :
  Exists (fun e => name (snd e) = None) pool -> scan akw pool best hs = Raise KeyError.
Proof.
  revert best hs; induction pool as [|e pool IH]; intros best hs H; simpl.
  - inversion H.
  - destruct (name (snd e)) eqn:En; [|reflexivity].
    inversion H as [? ? He | ? ? Hrest]; subst; [congruence|].
    destruct (qltb _ _); apply IH; exact Hrest.
Qed.

Lemma first_best_unique akw pool i e i' e' :
  first_best akw pool i e -> first_best akw pool i' e' -> i = i' /\ e = e'.
Proof.
  intros (Hi & Hbef & Hall) (Hi' & Hbef' & Hall').
  destruct (Nat.lt_trichotomy i i') as [Hlt | [-> | Hlt]].
  - exfalso. specialize (Hbef' i e Hlt Hi). specialize (Hall i' e' Hi').
    apply (Qlt_not_le _ _ Hbef' Hall).
  - split; congruence.
  - exfalso. specialize (Hbef i' e' Hlt Hi'). specialize (Hall' i e Hi).
    apply (Qlt_not_le _ _ Hbef Hall').
Qed.

(** ** [list.remove] on the pool *)

Lemma py_remove_at pool i e :
  nth_error pool i = Some e ->
  (forall j e', (j < i)%nat -> nth_error pool j = Some e' -> listing_eqb (snd e') (snd e) = false) ->
  py_remove (snd e) pool = Ok (remove_nth i pool).
Proof.
  revert i; induction pool as [|e0 pool IH]; intros [|i] Hi Hbef; simpl in Hi; try discriminate.
  - injection Hi as ->. simpl. rewrite listing_eqb_refl. reflexivity.
  - simpl. rewrite (Hbef 0%nat e0) by (reflexivity || lia).
    rewrite (IH i Hi) by (intros j e' Hj He'; apply (Hbef (S j)); [lia | exact He']).
    reflexivity.
Qed.

(** [flipkart_list_copy.remove(best_match)] removes the very entry the scan
    selected: an earlier equal dict would have had the same similarity. *)
Lemma py_remove_first_best akw pool i e :
  first_best akw pool i e -> py_remove (snd e) pool = Ok (remove_nth i pool).
Proof.
  intros (Hi & Hbef & _). apply py_remove_at; [exact Hi|].
  intros j e' Hj He'. destruct (listing_eqb (snd e') (snd e)) eqn:Eq; [|reflexivity].
  exfalso. apply listing_eqb_name in Eq.
  specialize (Hbef j e' Hj He'). unfold sim_of in Hbef. rewrite Eq in Hbef.
  apply (Qlt_irrefl _ Hbef).
Qed.

(** ** One iteration of the outer loop: [compare_one] *)

Lemma kw_of_name a n : name a = Some n -> kw_of a = get_keywords n.
Proof. intros H; unfold kw_of; rewrite H; reflexivity. Qed.

(** An iteration either leaves the pool alone and emits nothing, or emits a
    comparison with the earliest best entry and removes exactly that entry. *)
Lemma compare_one_cases pool a r :
  compare_one pool a = Ok r ->
  r = (None, pool) \/
  (exists i e c, first_best (kw_of a) pool i e /\ r = (Some c, remove_nth i pool) /\
                 flipkart_product c = e /\ amazon_product c = a).
Proof.
  unfold compare_one. intros H.
  destruct (name a) as [n|] eqn:Ea; [|discriminate].
  rewrite <- (kw_of_name a n Ea) in H.
  destruct (scan (kw_of a) pool None 0) as [[bm hs]|] eqn:Es; cbn [bind] in H; [|discriminate].
  apply scan_cases in Es.
  destruct Es as [[Heq _] | (i & e & Heq & _ & Hfb)]; injection Heq as -> ->.
  - left; injection H; auto.
  - destruct (qltb (1 # 5) (sim_of (kw_of a) e)); [|left; injection H; auto].
    destruct (clean_price (get_price a)) as [pa|]; cbn [bind] in H; [|discriminate].
    destruct (clean_price (get_price (snd e))) as [pb|]; cbn [bind] in H; [|discriminate].
    destruct (negb (is_pinf pa) && negb (is_pinf pb)); [|left; injection H; auto].
    rewrite (py_remove_first_best _ _ _ _ Hfb) in H. cbn [bind] in H.
    injection H as <-. right. exists i, e. eexists. split; [exact Hfb|].
    split; [reflexivity|]. split; reflexivity.
Qed.

Lemma remove_nth_split pool i e :
  nth_error pool i = Some e ->
  exists l1 l2, pool = l1 ++ e :: l2 /\ remove_nth i pool = l1 ++ l2.
Proof.
  intros H. destruct (nth_error_split pool i H) as (l1 & l2 & -> & <-).
  exists l1, l2. split; [reflexivity|]. clear H.
  unfold remove_nth. induction l1 as [|x l1 IH]; [reflexivity|].
  simpl. f_equal. exact IH.
Qed.

(** ** The outer loop *)

Lemma compare_loop_length amazon_list pool cs :
  compare_loop amazon_list pool = Ok cs ->
  (List.length cs <= List.length amazon_list)%nat /\ (List.length cs <= List.length pool)%nat.
Proof.
  revert pool cs; induction amazon_list as [|a rest IH]; intros pool cs H; simpl in H.
  - injection H as <-; simpl; lia.
  - destruct (compare_one pool a) as [[oc pool']|] eqn:E1; cbn [bind] in H; [|discriminate].
    destruct (compare_loop rest pool') as [cs'|] eqn:E2; cbn [bind] in H; [|discriminate].
    injection H as <-. destruct (IH _ _ E2) as [H1 H2].
    apply compare_one_cases in E1.
    destruct E1 as [E | (i & e & c & (Hi & _) & E & _ & _)]; injection E as -> ->.
    + simpl; lia.
    + destruct (remove_nth_split _ _ _ Hi) as (l1 & l2 & -> & Hr).
      rewrite Hr in H2. simpl. rewrite length_app in *. simpl. lia.
Qed.

Lemma compare_loop_injective amazon_list pool cs :
  compare_loop amazon_list pool = Ok cs ->
  NoDup (map fst pool) ->
  NoDup (matched_positions cs) /\ (forall c, In c cs -> In (flipkart_product c) pool).
Proof.
  revert pool cs; induction amazon_list as [|a rest IH]; intros pool cs H Hnd; simpl in H.
  - injection H as <-. split; [constructor | intros c []].
  - destruct (compare_one pool a) as [[oc pool']|] eqn:E1; cbn [bind] in H; [|discriminate].
    destruct (compare_loop rest pool') as [cs'|] eqn:E2; cbn [bind] in H; [|discriminate].
    injection H as <-. apply compare_one_cases in E1.
    destruct E1 as [E | (i & e & c & (Hi & _) & E & Hfp & _)]; injection E as -> ->.
    + exact (IH _ _ E2 Hnd).
    + destruct (remove_nth_split _ _ _ Hi) as (l1 & l2 & -> & Hr). rewrite Hr in E2.
      rewrite map_app in Hnd. simpl in Hnd.
      destruct (IH _ _ E2) as [Hnd' Hin'].
      { rewrite map_app. eapply NoDup_remove_1; eauto. }
      split.
      * simpl. constructor; [|exact Hnd'].
        intros Hin. apply in_map_iff in Hin. destruct Hin as (c' & Hc' & Hc'in).
        apply Hin' in Hc'in. apply (NoDup_remove_2 _ _ _ Hnd).
        rewrite <- map_app, <- Hfp, <- Hc'. apply in_map; exact Hc'in.
      * intros c' [<- | Hc']; rewrite ?Hfp.
        -- apply in_or_app; right; left; reflexivity.
        -- specialize (Hin' c' Hc'). apply in_app_or in Hin'.
           apply in_or_app. destruct Hin'; [left | right; right]; assumption.
Qed.

(** ** [enumerate] *)

Lemma enumerate_fst k (l : list listing) :
  map fst (combine (seq k (List.length l)) l) = seq k (List.length l).
Proof.
  revert k; induction l as [|x l IH]; intros k; simpl; [reflexivity|].
  f_equal. apply IH.
Qed.

Lemma enumerate_in k (l : list listing) p x :
  In (p, x) (combine (seq k (List.length l)) l) ->
  (k <= p)%nat /\ nth_error l (p - k) = Some x.
Proof.
  revert k; induction l as [|y l IH]; intros k H; simpl in H; [contradiction|].
  destruct H as [H | H].
  - injection H as -> ->. rewrite Nat.sub_diag. split; [lia | reflexivity].
  - destruct (IH _ H) as [Hle Hnth]. split; [lia|].
    replace (p - k)%nat with (S (p - S k)) by lia. exact Hnth.
Qed.

Lemma enumerate_exists k (l : list listing) :
  Exists (fun p => name p = None) l ->
  Exists (fun e => name (snd e) = None) (combine (seq k (List.length l)) l).
Proof.
  revert k; induction l as [|x l IH]; intros k H; [inversion H|].
  simpl. inversion H as [? ? Hx | ? ? Hl]; subst.
  - constructor 1; exact Hx.
  - constructor 2; apply IH; exact Hl.
Qed.

(** ** Keyword sets *)

Lemma mem_In w ws : mem w ws = true <-> In w ws.
Proof.
  unfold mem. rewrite existsb_exists. split.
  - intros (x & Hx & Heq). apply pystr_eqb_eq in Heq. subst; exact Hx.
  - intros H. exists w. split; [exact H | apply pystr_eqb_refl].
Qed.

Lemma py_set_NoDup xs : NoDup (py_set xs).
Proof.
  induction xs as [|x xs IH]; simpl; [constructor|].
  destruct (mem x (py_set xs)) eqn:E; [exact IH|].
  constructor; [|exact IH].
  intros Hin. apply mem_In in Hin. congruence.
Qed.

Lemma get_keywords_NoDup n : NoDup (get_keywords n).
Proof. apply py_set_NoDup. Qed.

Lemma kw_of_NoDup a : NoDup (kw_of a).
Proof. unfold kw_of; destruct (name a); [apply get_keywords_NoDup | constructor]. Qed.

Lemma kw_inter_In k1 k2 w : In w (kw_inter k1 k2) <-> In w k1 /\ In w k2.
Proof. unfold kw_inter. rewrite filter_In, mem_In. tauto. Qed.

Lemma kw_union_In k1 k2 w : In w (kw_union k1 k2) <-> In w k1 \/ In w k2.
Proof.
  unfold kw_union. rewrite in_app_iff, filter_In, negb_true_iff. split.
  - intros [H | [H _]]; auto.
  - intros [H | H]; [left; exact H|].
    destruct (mem w k1) eqn:E; [left; apply mem_In; exact E | right; auto].
Qed.

Lemma kw_union_NoDup k1 k2 : NoDup k1 -> NoDup k2 -> NoDup (kw_union k1 k2).
Proof.
  intros H1 H2. unfold kw_union. apply NoDup_app; [exact H1 | apply NoDup_filter; exact H2|].
  intros w Hw Hf. apply filter_In in Hf. destruct Hf as [_ Hf].
  apply negb_true_iff in Hf. apply mem_In in Hw. congruence.
Qed.

Lemma enumerate_length k (l : list listing) :
  List.length (combine (seq k (List.length l)) l) = List.length l.
Proof.
  revert k; induction l as [|x l IH]; intros k; simpl; [reflexivity|].
  f_equal; apply IH.
Qed.

(** ** C1 *)

(** C1: in every result of [compare_products], no two comparisons carry the
    same Flipkart listing: their positions in [flipkart_list] are pairwise
    distinct, and each comparison carries the listing found at its
    position. *)
Theorem compare_products_injective (amazon_list flipkart_list : list listing)
    (cs : list comparison) :
  compare_products amazon_list flipkart_list = Ok cs ->
  NoDup (matched_positions cs) /\
  (forall c, In c cs ->
     nth_error flipkart_list (fst (flipkart_product c)) = Some (snd (flipkart_product c))).
Proof.
  unfold compare_products, enumerate. intros H.
  destruct (compare_loop_injective _ _ _ H) as [Hnd Hin].
  { rewrite enumerate_fst. apply seq_NoDup. }
  split; [exact Hnd|].
  intros c Hc. specialize (Hin c Hc).
  destruct (flipkart_product c) as [p x]. apply enumerate_in in Hin.
  destruct Hin as [_ Hn]. rewrite Nat.sub_0_r in Hn. exact Hn.
Qed.

Lemma compare_products_injective_witness :
  compare_products demo_amazon demo_flipkart = Ok demo_comparisons /\
  matched_positions demo_comparisons = [0; 1]%nat /\
  NoDup (matched_positions demo_comparisons).
Proof.
  assert (H : compare_products demo_amazon demo_flipkart = Ok demo_comparisons)
    by (vm_compute; reflexivity).
  split; [exact H|]. split; [vm_compute; reflexivity|].
  exact (proj1 (compare_products_injective _ _ _ H)).
Defined.

(** ** C2 *)

(** C2: over a pool of named listings, the inner loop of [compare_products]
    selects the earliest pool entry of greatest Jaccard similarity (a later
    entry of equal similarity never replaces it), whenever that similarity
    is positive; when every similarity is 0 nothing is selected.  The
    similarity is |intersection| / |union| of the two keyword sets, 0 when
    the union is empty. *)
Theorem scan_selects_first_best (a : listing) (pool : list entry) :
  Forall named_entry pool ->
  (exists best_match highest_similarity,
     scan (kw_of a) pool None 0 = Ok (best_match, highest_similarity) /\
     match best_match with
     | Some e =>
         (exists i, first_best (kw_of a) pool i e) /\
         (0 < sim_of (kw_of a) e)%Q /\ highest_similarity = sim_of (kw_of a) e
     | None =>
         highest_similarity = 0%Q /\
         forall j e, nth_error pool j = Some e -> (sim_of (kw_of a) e == 0)%Q
     end) /\
  (forall e n, In e pool -> name (snd e) = Some n ->
     let k1 := kw_of a in
     let k2 := get_keywords n in
     NoDup (kw_inter k1 k2) /\ NoDup (kw_union k1 k2) /\
     (forall w, In w (kw_inter k1 k2) <-> In w k1 /\ In w k2) /\
     (forall w, In w (kw_union k1 k2) <-> In w k1 \/ In w k2) /\
     sim_of k1 e =
       (if Nat.ltb 0 (List.length (kw_union k1 k2))
        then Qmake (Z.of_nat (List.length (kw_inter k1 k2)))
                   (Pos.of_nat (List.length (kw_union k1 k2)))
        else 0%Q)).
Proof.
  intros Hp. split.
  - destruct (scan_total (kw_of a) pool None 0 Hp) as [[bm hs] Hs].
    exists bm, hs. split; [exact Hs|].
    apply scan_cases in Hs.
    destruct Hs as [[Heq Hle] | (i & e & Heq & Hlt & Hfb)]; injection Heq as -> ->.
    + split; [reflexivity|]. intros j e He.
      apply Qle_antisym; [exact (Hle j e He) | apply sim_of_nonneg].
    + split; [exists i; exact Hfb|]. split; [exact Hlt | reflexivity].
  - intros e n _ Hn k1 k2.
    split; [apply NoDup_filter, kw_of_NoDup|].
    split; [apply kw_union_NoDup; [apply kw_of_NoDup | apply get_keywords_NoDup]|].
    split; [intros w; apply kw_inter_In|].
    split; [intros w; apply kw_union_In|].
    rewrite (sim_of_cons k1 e n Hn). reflexivity.
Qed.

Lemma scan_selects_first_best_witness :
  Forall named_entry (enumerate demo_flipkart) /\
  scan (kw_of iphone_a) (enumerate demo_flipkart) None 0 =
    Ok (Some (0%nat, iphone_b), (3 # 4)%Q) /\
  (exists best_match highest_similarity,
     scan (kw_of iphone_a) (enumerate demo_flipkart) None 0 = Ok (best_match, highest_similarity) /\
     match best_match with
     | Some e =>
         (exists i, first_best (kw_of iphone_a) (enumerate demo_flipkart) i e) /\
         (0 < sim_of (kw_of iphone_a) e)%Q /\ highest_similarity = sim_of (kw_of iphone_a) e
     | None =>
         highest_similarity = 0%Q /\
         forall j e, nth_error (enumerate demo_flipkart) j = Some e ->
                     (sim_of (kw_of iphone_a) e == 0)%Q
     end).
Proof.
  assert (H : Forall named_entry (enumerate demo_flipkart))
    by (repeat constructor).
  split; [exact H|]. split; [vm_compute; reflexivity|].
  exact (proj1 (scan_selects_first_best iphone_a _ H)).
Defined.

(** ** C6 *)

(** C6: [compare_products] returns at most min(len(amazon_list),
    len(flipkart_list)) comparisons; with an empty Amazon list it returns
    [[]], and with an empty Flipkart list it returns [[]] for every list of
    named Amazon listings. *)
Theorem compare_products_length_bound :
  (forall amazon_list flipkart_list cs,
     compare_products amazon_list flipkart_list = Ok cs ->
     (List.length cs <= Nat.min (List.length amazon_list) (List.length flipkart_list))%nat) /\
  (forall flipkart_list, compare_products [] flipkart_list = Ok []) /\
  (forall amazon_list, Forall (fun p => has_name p = true) amazon_list ->
     compare_products amazon_list [] = Ok []).
Proof.
  split; [|split].
  - intros A B cs H. unfold compare_products, enumerate in H.
    destruct (compare_loop_length _ _ _ H) as [H1 H2].
    rewrite enumerate_length in H2. lia.
  - intros B; reflexivity.
  - intros A HA. unfold compare_products, enumerate; simpl.
    induction HA as [|a A Ha HA IH]; [reflexivity|].
    simpl. unfold compare_one. unfold has_name in Ha.
    destruct (name a); [|discriminate]. cbn [scan bind]. rewrite IH. reflexivity.
Qed.

Lemma compare_products_length_bound_witness :
  compare_products demo_amazon demo_flipkart = Ok demo_comparisons /\
  (List.length demo_comparisons <= 2)%nat /\
  compare_products demo_amazon [] = Ok [].
Proof.
  assert (H : compare_products demo_amazon demo_flipkart = Ok demo_comparisons)
    by (vm_compute; reflexivity).
  split; [exact H|]. split.
  - exact (proj1 compare_products_length_bound _ _ _ H).
  - apply (proj2 (proj2 compare_products_length_bound)).
    repeat constructor.
Defined.

(** ** [clean_price] never raises *)

Lemma py_float_str_raise s e : py_float_str s = Raise e -> e = ValueError.
Proof.
  unfold py_float_str. destruct (sign (strip s)) as [sg t].
  destruct (number t) as [[[m k] [|c r]]|]; intros H; congruence.
Qed.

Lemma clean_price_ok v : exists f, clean_price v = Ok f.
Proof.
  destruct v as [s| |z]; try (exists PInf; reflexivity).
  unfold clean_price. destruct (pystr_eqb s (u "N/A")); [exists PInf; reflexivity|].
  destruct (py_float_str (cleaned s)) as [f|e] eqn:E; [exists f; reflexivity|].
  apply py_float_str_raise in E; subst. exists PInf; reflexivity.
Qed.

(** ** C3 *)

Lemma forall_or_exists_nameless (pool : list entry) :
  Forall named_entry pool \/ Exists (fun e => name (snd e) = None) pool.
Proof.
  induction pool as [|e pool [IH | IH]].
  - left; constructor.
  - unfold named_entry, has_name. destruct (name (snd e)) eqn:E.
    + left; constructor; [unfold named_entry, has_name; rewrite E; reflexivity | exact IH].
    + right; constructor 1; exact E.
  - right; constructor 2; exact IH.
Qed.

Lemma compare_one_total pool a :
  has_name a = true -> Forall named_entry pool -> exists r, compare_one pool a = Ok r.
Proof.
  intros Ha Hp. unfold compare_one, has_name in *.
  destruct (name a) as [n|] eqn:Ea; [|discriminate].
  destruct (scan_total (get_keywords n) pool None 0 Hp) as [[bm hs] Hs].
  rewrite Hs; cbn [bind].
  apply scan_cases in Hs.
  destruct Hs as [[Heq _] | (i & e & Heq & _ & Hfb)]; injection Heq as -> ->;
    cbv beta iota; [eauto|].
  destruct (qltb _ _); [|eauto].
  destruct (clean_price_ok (get_price a)) as [pa Hpa]; rewrite Hpa; cbn [bind].
  destruct (clean_price_ok (get_price (snd e))) as [pb Hpb]; rewrite Hpb; cbn [bind].
  destruct (_ && _); [|eauto].
  rewrite (py_remove_first_best _ _ _ _ Hfb); cbn [bind]; eauto.
Qed.

Lemma one_fifth_pos : (0 <= 1 # 5)%Q.
Proof. unfold Qle; simpl; lia. Qed.

Lemma is_pinf_true x : is_pinf x = true -> x = PInf.
Proof. destruct x; simpl; congruence. Qed.

Lemma is_pinf_false x : is_pinf x = false -> x <> PInf.
Proof. destruct x; simpl; congruence. Qed.

(** C3, as amended: for a named Amazon listing and a pool of named Flipkart
    listings, the iteration never raises, and it emits a comparison (with the
    earliest best entry, which alone leaves the pool) exactly when that
    entry's similarity is above 0.2 and neither cleaned price is [+inf];
    otherwise it emits nothing and keeps the pool.  A price that overflows
    to [-inf] is not rejected. *)
Theorem compare_one_emits_iff (pool : list entry) (a : listing) :
  has_name a = true -> Forall named_entry pool ->
  exists r, compare_one pool a = Ok r /\
  ((exists i e pa pb c,
      first_best (kw_of a) pool i e /\ (1 # 5 < sim_of (kw_of a) e)%Q /\
      clean_price (get_price a) = Ok pa /\ clean_price (get_price (snd e)) = Ok pb /\
      pa <> PInf /\ pb <> PInf /\
      r = (Some c, remove_nth i pool) /\ amazon_product c = a /\ flipkart_product c = e) \/
   (r = (None, pool) /\
    forall i e, first_best (kw_of a) pool i e -> (1 # 5 < sim_of (kw_of a) e)%Q ->
      clean_price (get_price a) = Ok PInf \/ clean_price (get_price (snd e)) = Ok PInf)).
Proof.
  intros Ha Hp. unfold compare_one. unfold has_name in Ha.
  destruct (name a) as [n|] eqn:Ea; [|discriminate].
  rewrite <- (kw_of_name a n Ea).
  destruct (scan_total (kw_of a) pool None 0 Hp) as [[bm hs] Hs].
  rewrite Hs; cbn [bind].
  apply scan_cases in Hs.
  destruct Hs as [[Heq Hle] | (i & e & Heq & _ & Hfb)]; injection Heq as -> ->;
    cbv beta iota.
  - exists (None, pool). split; [reflexivity|]. right. split; [reflexivity|].
    intros i e (Hi & _ & _) Hgt. exfalso.
    apply (Qlt_not_le _ _ Hgt). eapply Qle_trans; [exact (Hle i e Hi) | exact one_fifth_pos].
  - destruct (qltb (1 # 5) (sim_of (kw_of a) e)) eqn:Hq.
    + destruct (clean_price_ok (get_price a)) as [pa Hpa]; rewrite Hpa; cbn [bind].
      destruct (clean_price_ok (get_price (snd e))) as [pb Hpb]; rewrite Hpb; cbn [bind].
      destruct (is_pinf pa) eqn:Pa; [|destruct (is_pinf pb) eqn:Pb]; cbn [negb andb].
      * exists (None, pool). split; [reflexivity|]. right. split; [reflexivity|].
        intros i' e' Hfb' _. destruct (first_best_unique _ _ _ _ _ _ Hfb Hfb') as [_ <-].
        left. rewrite (is_pinf_true _ Pa). reflexivity.
      * exists (None, pool). split; [reflexivity|]. right. split; [reflexivity|].
        intros i' e' Hfb' _. destruct (first_best_unique _ _ _ _ _ _ Hfb Hfb') as [_ <-].
        right. rewrite Hpb, (is_pinf_true _ Pb). reflexivity.
      * rewrite (py_remove_first_best _ _ _ _ Hfb); cbn [bind].
        eexists. split; [reflexivity|]. left.
        exists i, e, pa, pb. eexists.
        split; [exact Hfb|]. split; [apply qltb_lt; exact Hq|].
        split; [reflexivity|]. split; [first [reflexivity | exact Hpb]|].
        split; [apply is_pinf_false; exact Pa|]. split; [apply is_pinf_false; exact Pb|].
        split; [reflexivity|]. split; reflexivity.
    + exists (None, pool). split; [reflexivity|]. right. split; [reflexivity|].
      intros i' e' Hfb' Hgt. destruct (first_best_unique _ _ _ _ _ _ Hfb Hfb') as [_ <-].
      apply qltb_lt in Hgt. congruence.
Qed.

Lemma compare_one_emits_iff_witness :
  has_name iphone_a = true /\ Forall named_entry (enumerate demo_flipkart) /\
  exists r, compare_one (enumerate demo_flipkart) iphone_a = Ok r /\
  ((exists i e pa pb c,
      first_best (kw_of iphone_a) (enumerate demo_flipkart) i e /\
      (1 # 5 < sim_of (kw_of iphone_a) e)%Q /\
      clean_price (get_price iphone_a) = Ok pa /\ clean_price (get_price (snd e)) = Ok pb /\
      pa <> PInf /\ pb <> PInf /\
      r = (Some c, remove_nth i (enumerate demo_flipkart)) /\
      amazon_product c = iphone_a /\ flipkart_product c = e) \/
   (r = (None, enumerate demo_flipkart) /\
    forall i e, first_best (kw_of iphone_a) (enumerate demo_flipkart) i e ->
      (1 # 5 < sim_of (kw_of iphone_a) e)%Q ->
      clean_price (get_price iphone_a) = Ok PInf \/ clean_price (get_price (snd e)) = Ok PInf)).
Proof.
  assert (Ha : has_name iphone_a = true) by reflexivity.
  assert (Hp : Forall named_entry (enumerate demo_flipkart)) by (repeat constructor).
  split; [exact Ha|]. split; [exact Hp|].
  exact (compare_one_emits_iff _ _ Ha Hp).
Defined.

(** C3 fails as stated: an Amazon price that overflows to [-inf] is not
    finite, yet the pair is emitted, since only [+inf] is rejected. *)
Lemma negative_overflow_price_emitted :
  clean_price (get_price overflow_amazon) = Ok NInf /\
  match compare_products [overflow_amazon] [tv_flipkart] with
  | Ok [c] => amazon_product c = overflow_amazon /\ flipkart_product c = (0%nat, tv_flipkart) /\
              best_deal c = u "Amazon" /\ price_difference c = app_currency_prefix ++ u "inf"
  | _ => False
  end.
Proof.
  split; [vm_compute; reflexivity|].
  vm_compute. repeat split.
Qed.

(** ** C4 *)

(** C4: on the spec's iPhone scenario the comparison names Flipkart the
    best deal, but its price difference starts with the three characters
    "â‚¹" that the source literal holds, not with the rupee sign. *)
Theorem iphone_price_difference_prefix :
  match compare_products [iphone_a] [iphone_b] with
  | Ok [c] => best_deal c = u "Flipkart" /\
              price_difference c = app_currency_prefix ++ u "1,499.00" /\
              price_difference c <> rupee :: u "1,499.00"
  | _ => False
  end.
Proof.
  vm_compute. split; [reflexivity|]. split; [reflexivity | discriminate].
Qed.

(** ** C5 *)

(** C5: [clean_price] never raises, and returns [inf] on a non-string, on
    "N/A", and on any string whose cleaned form [float] rejects. *)
Theorem clean_price_never_raises :
  (forall v, exists f, clean_price v = Ok f) /\
  (forall v, (forall s, v <> VStr s) -> clean_price v = Ok PInf) /\
  clean_price (VStr (u "N/A")) = Ok PInf /\
  (forall s e, py_float_str (cleaned s) = Raise e -> clean_price (VStr s) = Ok PInf).
Proof.
  split; [exact clean_price_ok|]. split; [|split; [reflexivity|]].
  - intros [s| |z] H; [exfalso; exact (H s eq_refl) | reflexivity | reflexivity].
  - intros s e H. unfold clean_price.
    destruct (pystr_eqb s (u "N/A")); [reflexivity|].
    rewrite H. apply py_float_str_raise in H. subst. reflexivity.
Qed.

Lemma clean_price_never_raises_witness :
  clean_price VNone = Ok PInf /\
  py_float_str (cleaned (u "not-a-price")) = Raise ValueError /\
  clean_price (VStr (u "not-a-price")) = Ok PInf.
Proof.
  split; [apply (proj1 (proj2 clean_price_never_raises)); intros s; discriminate|].
  assert (H : py_float_str (cleaned (u "not-a-price")) = Raise ValueError)
    by (vm_compute; reflexivity).
  split; [exact H|].
  exact (proj2 (proj2 (proj2 clean_price_never_raises)) _ _ H).
Defined.

(** ** C7 *)

Lemma compare_loop_missing_name amazon_list pool :
  Exists (fun p => name p = None) amazon_list \/
  (amazon_list <> [] /\ Exists (fun e => name (snd e) = None) pool) ->
  compare_loop amazon_list pool = Raise KeyError.
Proof.
  revert pool; induction amazon_list as [|a rest IH]; intros pool H.
  - destruct H as [H | [H _]]; [inversion H | congruence].
  - simpl. destruct (name a) as [n|] eqn:Ea.
    2: { unfold compare_one; rewrite Ea; reflexivity. }
    destruct (forall_or_exists_nameless pool) as [Hp | Hp].
    + assert (Hrest : Exists (fun p => name p = None) rest).
      { destruct H as [H | [_ H]].
        - inversion H as [? ? Hx | ? ? Hx]; subst; [congruence | exact Hx].
        - exfalso. rewrite Forall_forall in Hp. apply Exists_exists in H.
          destruct H as (e & He & Hn). specialize (Hp e He).
          unfold named_entry, has_name in Hp. rewrite Hn in Hp. discriminate. }
      assert (Ha : has_name a = true) by (unfold has_name; rewrite Ea; reflexivity).
      destruct (compare_one_total pool a Ha Hp) as [[oc pool'] E]. rewrite E.
      cbn [bind]. rewrite (IH pool' (or_introl Hrest)). reflexivity.
    + unfold compare_one. rewrite Ea. rewrite (scan_raises _ _ _ _ Hp). reflexivity.
Qed.

(** C7, as amended: a listing without [name] is not read as an empty
    keyword set; [compare_products] raises [KeyError] when an Amazon listing
    lacks it, and when the Amazon list is non-empty and a Flipkart listing
    lacks it. *)
Theorem compare_products_missing_name (amazon_list flipkart_list : list listing) :
  Exists (fun p => name p = None) amazon_list \/
  (amazon_list <> [] /\ Exists (fun p => name p = None) flipkart_list) ->
  compare_products amazon_list flipkart_list = Raise KeyError.
Proof.
  intros H. apply compare_loop_missing_name.
  destruct H as [H | [Hne H]]; [left; exact H | right; split; [exact Hne|]].
  apply enumerate_exists; exact H.
Qed.

Lemma compare_products_missing_name_witness :
  compare_products [iphone_a] [nameless] = Raise KeyError.
Proof.
  apply compare_products_missing_name. right. split; [discriminate|].
  constructor 1; reflexivity.
Defined.

(** C7 fails as stated: a listing without [name] makes the call raise. *)
Lemma missing_name_raises :
  compare_products [nameless] [] = Raise KeyError /\
  compare_products [iphone_a] [nameless] = Raise KeyError.
Proof. split; vm_compute; reflexivity. Qed.

(** ** C8 *)

Lemma first_urls_step_NoDup us p : NoDup us -> NoDup (first_urls_step us p).
Proof.
  intros H. unfold first_urls_step.
  destruct (product_url p) as [k|]; [|exact H].
  destruct (mem k us) eqn:E; [exact H|].
  apply NoDup_app; [exact H | constructor; [intros [] | constructor]|].
  intros w Hw [<- | []]. apply mem_In in Hw. congruence.
Qed.

Lemma first_urls_NoDup results : NoDup (first_urls results).
Proof.
  unfold first_urls. assert (H : NoDup (@nil pystr)) by constructor.
  revert H. generalize (@nil pystr).
  induction results as [|p results IH]; intros us H; simpl; [exact H|].
  apply IH, first_urls_step_NoDup, H.
Qed.

Lemma dict_set_map {V W} (f : V -> W) k v (d : list (pystr * V)) :
  map (fun kv => (fst kv, f (snd kv))) (dict_set k v d) =
  dict_set k (f v) (map (fun kv => (fst kv, f (snd kv))) d).
Proof.
  induction d as [|[k' v'] d IH]; simpl; [reflexivity|].
  destruct (pystr_eqb k k'); simpl; [reflexivity|]. f_equal; exact IH.
Qed.

(** Setting a key in a dict whose keys are the distinct [us]. *)
Lemma dict_set_table {V} k (v : V) (us : list pystr) (f : pystr -> V) :
  NoDup us ->
  dict_set k v (map (fun k' => (k', f k')) us) =
  map (fun k' => (k', if pystr_eqb k k' then v else f k')) (if mem k us then us else us ++ [k]).
Proof.
  induction us as [|k0 us IH]; intros Hnd; simpl.
  - rewrite pystr_eqb_refl. reflexivity.
  - inversion Hnd as [|? ? Hk0 Hus]; subst.
    unfold mem at 1; simpl; fold (mem k us).
    destruct (pystr_eqb k k0) eqn:E; simpl.
    + apply pystr_eqb_eq in E; subst k0. rewrite pystr_eqb_refl. f_equal.
      apply map_ext_in. intros k' Hk'.
      destruct (pystr_eqb k k') eqn:E'; [|reflexivity].
      apply pystr_eqb_eq in E'; subst; contradiction.
    + rewrite (IH Hus).
      destruct (mem k us); simpl; rewrite E; reflexivity.
Qed.

Lemma unique_by_url_table results :
  map (fun kv => (fst kv, Some (snd kv))) (fold_left url_step results []) =
  map (fun k => (k, last_with k results)) (first_urls results).
Proof.
  induction results as [|p results IH] using rev_ind; [reflexivity|].
  unfold first_urls, last_with in *. rewrite !fold_left_app. simpl.
  unfold url_step at 1, first_urls_step at 1.
  destruct (product_url p) as [k|] eqn:Eu.
  - rewrite dict_set_map, IH, dict_set_table by apply first_urls_NoDup.
    apply map_ext. intros k'. rewrite fold_left_app. simpl. rewrite Eu. reflexivity.
  - rewrite IH. apply map_ext. intros k'. rewrite fold_left_app. simpl.
    rewrite Eu. reflexivity.
Qed.

(** C8, as amended: the per-source output keeps only listings that have a
    [product_url]; each distinct URL appears once, carrying the last listing
    of the input with that URL, and the URLs come in the order of their
    first occurrence in the input. *)
Theorem unique_by_url_last_write_first_position (results : list listing) :
  map Some (unique_by_url results) = map (fun k => last_with k results) (first_urls results) /\
  NoDup (first_urls results).
Proof.
  split; [|apply first_urls_NoDup].
  unfold unique_by_url.
  pose proof (f_equal (map snd) (unique_by_url_table results)) as H.
  rewrite !map_map in H. simpl in H. rewrite map_map. exact H.
Qed.

(** C8 fails as stated: a later duplicate keeps the place of the first
    occurrence, so it comes before a listing that preceded it in the input,
    and a listing without a URL is dropped. *)
Lemma dedup_order_counterexample :
  unique_by_url [url_x1; url_y; url_x2] = [url_x2; url_y] /\
  unique_by_url [iphone_a] = [].
Proof. split; vm_compute; reflexivity. Qed.

(** ** C9 *)

(** C9: the rupee sign and thousands separators are stripped and the rest
    parsed as a number. *)
Theorem clean_price_examples :
  clean_price (VStr (rupee :: u "12,999")) = Ok (Fin (12999 # 1)) /\
  clean_price (VStr (rupee :: u "1,200")) = Ok (Fin (1200 # 1)).
Proof. split; vm_compute; reflexivity. Qed.

(** ** C10 *)

(** C10: when the most similar Flipkart listing has no price, the Amazon
    listing is skipped even though another listing above the threshold has
    a finite price, and the unpriced listing stays in the pool and blocks
    the next Amazon listing the same way. *)
Theorem unpriced_best_blocks_fallback :
  compare_products [tv_x_a; tv_x_a] [tv_x_na; tv_y_b] = Ok [] /\
  (1 # 5 < sim_of (kw_of tv_x_a) (1%nat, tv_y_b))%Q /\
  clean_price (get_price tv_y_b) = Ok (Fin (50 # 1)) /\
  clean_price (get_price tv_x_na) = Ok PInf /\
  compare_one (enumerate [tv_x_na; tv_y_b]) tv_x_a = Ok (None, enumerate [tv_x_na; tv_y_b]).
Proof.
  split; [vm_compute; reflexivity|].
  split; [vm_compute; reflexivity|].
  split; [vm_compute; reflexivity|].
  split; vm_compute; reflexivity.
Qed.

(** * Further properties of the code *)

(** ** [str.replace] *)

Lemma starts_with_app p r : starts_with p (p ++ r) = true.
Proof. induction p as [|c p IH]; simpl; [reflexivity|]. rewrite N.eqb_refl; exact IH. Qed.

Lemma replace_fuel_enough old new : old <> [] ->
  forall f1 f2 s, (List.length s < f1)%nat -> (List.length s < f2)%nat ->
  replace_fuel f1 old new s = replace_fuel f2 old new s.
Proof.
  intros Hold f1. induction f1 as [|f1 IH]; intros f2 s H1 H2; [lia|].
  destruct f2 as [|f2]; [lia|]. destruct s as [|c s]; simpl; [reflexivity|].
  destruct (starts_with old (c :: s)).
  - f_equal. destruct old as [|o old]; [congruence|].
    apply IH; rewrite length_skipn; simpl in *; lia.
  - f_equal. apply IH; simpl in *; lia.
Qed.

Lemma skipn_prefix (p r : pystr) : skipn (List.length p) (p ++ r) = r.
Proof. induction p as [|c p IH]; simpl; auto. Qed.

Lemma py_replace_nil old new : py_replace old new [] = [].
Proof. reflexivity. Qed.

Lemma replace_fuel_step f old new c s :
  replace_fuel (S f) old new (c :: s) =
  if starts_with old (c :: s)
  then new ++ replace_fuel f old new (skipn (List.length old) (c :: s))
  else c :: replace_fuel f old new s.
Proof. reflexivity. Qed.

Lemma py_replace_match old new c s :
  old <> [] -> starts_with old (c :: s) = true ->
  py_replace old new (c :: s) = new ++ py_replace old new (skipn (List.length old) (c :: s)).
Proof.
  intros Hold H. unfold py_replace at 1. rewrite replace_fuel_step, H. f_equal.
  apply replace_fuel_enough; [exact Hold| |lia].
  rewrite length_skipn; destruct old; [congruence|]; simpl; lia.
Qed.

Lemma py_replace_skip old new c s :
  old <> [] -> starts_with old (c :: s) = false ->
  py_replace old new (c :: s) = c :: py_replace old new s.
Proof.
  intros _ H. unfold py_replace at 1. rewrite replace_fuel_step, H. reflexivity.
Qed.

(** Replacing one character is a character-wise substitution. *)
Lemma py_replace_char (c : N) new s :
  py_replace [c] new s = flat_map (fun x => if N.eqb x c then new else [x]) s.
Proof.
  induction s as [|x s IH]; [reflexivity|].
  destruct (N.eqb c x) eqn:E.
  - rewrite py_replace_match by (discriminate || (simpl; rewrite E; reflexivity)).
    simpl. rewrite N.eqb_sym, E. f_equal. exact IH.
  - rewrite py_replace_skip by (discriminate || (simpl; rewrite E; reflexivity)).
    simpl. rewrite N.eqb_sym, E. simpl. f_equal. exact IH.
Qed.

(** Substituting [w] for [c], then [c] for [w], gives the string back when
    no character of it is the first character of [w]. *)
Lemma py_replace_char_back (c w0 : N) (w s : pystr) :
  Forall (fun x => x <> w0) s ->
  py_replace (w0 :: w) [c] (flat_map (fun x => if N.eqb x c then w0 :: w else [x]) s) = s.
Proof.
  induction s as [|x s IH]; intros H; [reflexivity|].
  inversion H as [|? ? Hx Hs]; subst. simpl.
  destruct (N.eqb x c) eqn:E.
  - apply N.eqb_eq in E; subst x. rewrite <- app_comm_cons.
    rewrite py_replace_match by (discriminate || exact (starts_with_app (w0 :: w) _)).
    rewrite app_comm_cons, (skipn_prefix (w0 :: w)). simpl. f_equal. exact (IH Hs).
  - cbv beta iota. cbn [app]. rewrite py_replace_skip.
    + f_equal. exact (IH Hs).
    + discriminate.
    + simpl. destruct (N.eqb w0 x) eqn:E'; [|reflexivity].
      apply N.eqb_eq in E'. congruence.
Qed.

(** ** Search URLs *)

Lemma flat_map_no_space (w s : pystr) :
  ~ In 32 w -> ~ In 32 (flat_map (fun x => if N.eqb x 32 then w else [x]) s).
Proof.
  intros Hw Hin. apply in_flat_map in Hin. destruct Hin as (x & _ & Hx).
  destruct (N.eqb x 32) eqn:E; [contradiction|].
  destruct Hx as [Hx | []]. subst x. rewrite N.eqb_refl in E. discriminate.
Qed.

Lemma not_in_Forall (c : N) (s : pystr) : ~ In c s -> Forall (fun x => x <> c) s.
Proof.
  intros H. apply Forall_forall. intros x Hx ->. contradiction.
Qed.

(** X1: the Amazon query has no space, and replacing each [+] of it by a
    space gives the product name back when the name has no [+]. *)
Theorem amazon_search_query_round_trip (product_name : pystr) :
  ~ In 43 product_name ->
  ~ In 32 (amazon_search_query product_name) /\
  py_replace (u "+") (u " ") (amazon_search_query product_name) = product_name.
Proof.
  intros H. unfold amazon_search_query. change (u " ") with [32]. change (u "+") with [43].
  rewrite py_replace_char. split.
  - apply flat_map_no_space. intros [Hc | []]. discriminate.
  - apply (py_replace_char_back 32 43 []). apply not_in_Forall; exact H.
Qed.

Lemma amazon_search_query_round_trip_witness :
  ~ In 43 (u "iPhone 15 Pro") /\
  amazon_search_query (u "iPhone 15 Pro") = u "iPhone+15+Pro" /\
  ~ In 32 (amazon_search_query (u "iPhone 15 Pro")) /\
  py_replace (u "+") (u " ") (amazon_search_query (u "iPhone 15 Pro")) = u "iPhone 15 Pro".
Proof.
  assert (H : ~ In 43 (u "iPhone 15 Pro")) by (simpl; intuition discriminate).
  split; [exact H|]. split; [vm_compute; reflexivity|].
  apply (amazon_search_query_round_trip (u "iPhone 15 Pro")); exact H.
Defined.

(** X2: the Flipkart query has no space, and replacing each [%20] of it by a
    space gives the product name back when the name has no [%]. *)
Theorem flipkart_search_query_round_trip (product_name : pystr) :
  ~ In 37 product_name ->
  ~ In 32 (flipkart_search_query product_name) /\
  py_replace (u "%20") (u " ") (flipkart_search_query product_name) = product_name.
Proof.
  intros H. unfold flipkart_search_query. change (u " ") with [32]. change (u "%20") with [37; 50; 48].
  rewrite py_replace_char. split.
  - apply flat_map_no_space. intros [Hc | [Hc | [Hc | []]]]; discriminate.
  - apply (py_replace_char_back 32 37 [50; 48]). apply not_in_Forall; exact H.
Qed.

Lemma flipkart_search_query_round_trip_witness :
  ~ In 37 (u "iPhone 15 Pro") /\
  flipkart_search_query (u "iPhone 15 Pro") = u "iPhone%2015%20Pro" /\
  ~ In 32 (flipkart_search_query (u "iPhone 15 Pro")) /\
  py_replace (u "%20") (u " ") (flipkart_search_query (u "iPhone 15 Pro")) = u "iPhone 15 Pro".
Proof.
  assert (H : ~ In 37 (u "iPhone 15 Pro")) by (simpl; intuition discriminate).
  split; [exact H|]. split; [vm_compute; reflexivity|].
  apply (flipkart_search_query_round_trip (u "iPhone 15 Pro")); exact H.
Defined.

(** ** [find_with_fallbacks] *)

(** X3: [find_with_fallbacks] returns the tag of the first selector for which
    [select_one] finds one without raising, every earlier selector finding
    nothing or raising; it returns [None] exactly when every selector finds
    nothing or raises.  It never raises. *)
Theorem find_with_fallbacks_first (element : card) (selectors : list pystr) :
  (forall found,
     find_with_fallbacks element selectors = Some found <->
     exists before selector after,
       selectors = before ++ selector :: after /\
       Forall (select_misses element) before /\
       element selector = Ok (Some found)) /\
  (find_with_fallbacks element selectors = None <->
   Forall (select_misses element) selectors).
Proof.
  induction selectors as [|s rest [IHs IHn]]; simpl.
  - split.
    + intros found; split; [discriminate|].
      intros (before & selector & after & Heq & _). destruct before; discriminate.
    + split; [constructor | reflexivity].
  - assert (Hmiss : forall r, element s = r ->
              (forall t, r <> Ok (Some t)) -> select_misses element s).
    { intros [[t|]|e] Hr Hn; unfold select_misses; rewrite Hr;
        [exfalso; exact (Hn t eq_refl) | left; reflexivity | right; eauto]. }
    split.
    + intros found. destruct (element s) as [[t|]|e] eqn:E.
      * split.
        -- intros H; injection H as ->. exists [], s, rest. repeat split; auto.
        -- intros (before & selector & after & Heq & Hb & Hf).
           destruct before as [|b before]; simpl in Heq; injection Heq as Hsb Heq; subst.
           ++ rewrite E in Hf. congruence.
           ++ inversion Hb as [|? ? Hs _]; subst.
              destruct Hs as [Hs | [e Hs]]; rewrite E in Hs; discriminate.
      * rewrite IHs. split.
        -- intros (before & selector & after & Heq & Hb & Hf).
           exists (s :: before), selector, after. subst rest. repeat split; auto.
           constructor; [|exact Hb]. left; exact E.
        -- intros (before & selector & after & Heq & Hb & Hf).
           destruct before as [|b before]; simpl in Heq; injection Heq as Hsb Heq; subst.
           ++ congruence.
           ++ inversion Hb; subst. exists before, selector, after. auto.
      * rewrite IHs. split.
        -- intros (before & selector & after & Heq & Hb & Hf).
           exists (s :: before), selector, after. subst rest. repeat split; auto.
           constructor; [|exact Hb]. right; eauto.
        -- intros (before & selector & after & Heq & Hb & Hf).
           destruct before as [|b before]; simpl in Heq; injection Heq as Hsb Heq; subst.
           ++ congruence.
           ++ inversion Hb; subst. exists before, selector, after. auto.
    + destruct (element s) as [[t|]|e] eqn:E.
      * split; [discriminate|]. intros H. inversion H as [|? ? Hs _]; subst.
        destruct Hs as [Hs | [e Hs]]; rewrite E in Hs; discriminate.
      * rewrite IHn. split.
        -- intros H. constructor; [left; exact E | exact H].
        -- intros H; inversion H; assumption.
      * rewrite IHn. split.
        -- intros H. constructor; [right; eauto | exact H].
        -- intros H; inversion H; assumption.
Qed.

(** ** One card to one dict *)

Lemma amazon_url_not_na href : pystr_eqb (u "https://www.amazon.in" ++ href) (u "N/A") = false.
Proof. reflexivity. Qed.

Lemma flipkart_url_not_na href : pystr_eqb (u "https://www.flipkart.com" ++ href) (u "N/A") = false.
Proof. reflexivity. Qed.

Lemma pystr_eqb_neq s t : pystr_eqb s t = false <-> s <> t.
Proof.
  split.
  - intros H E; subst; rewrite pystr_eqb_refl in H; discriminate.
  - intros H; destruct (pystr_eqb s t) eqn:E; [apply pystr_eqb_eq in E; contradiction | reflexivity].
Qed.

(** The case analysis of a card: which elements are found, whether the link
    has an [href], whether the name text is "N/A". *)
Ltac card_cases fname flink fprice :=
  let nt := fresh "nt" in let lt := fresh "lt" in let href := fresh "href" in
  let En := fresh "En" in let El := fresh "El" in let Eh := fresh "Eh" in
  let Ep := fresh "Ep" in let pt := fresh "pt" in let Ena := fresh "Ena" in
  destruct (find_with_fallbacks _ fname) as [nt|] eqn:En;
  destruct (find_with_fallbacks _ flink) as [lt|] eqn:El;
  try (match goal with
       | _ : find_with_fallbacks _ flink = Some ?l |- _ =>
           destruct (tag_get l (u "href")) as [href|] eqn:Eh
       end);
  try (match goal with
       | _ : find_with_fallbacks _ fname = Some ?n, _ : tag_get _ _ = Some _ |- _ =>
           destruct (pystr_eqb (get_text_strip n) (u "N/A")) eqn:Ena
       end);
  destruct (find_with_fallbacks _ fprice) as [pt|] eqn:Ep;
  rewrite ?pystr_eqb_refl, ?amazon_url_not_na, ?flipkart_url_not_na, ?andb_false_r;
  cbn [negb andb].

Ltac card_leaf :=
  match goal with
  | Ena : pystr_eqb (get_text_strip ?nt) (u "N/A") = false |- _ =>
      apply pystr_eqb_neq in Ena;
      split;
      [ split; [intros _; do 3 eexists; repeat split; eassumption | intros _; discriminate]
      | intros d Hd; injection Hd as <-; do 3 eexists; repeat split; try eassumption;
        first [left; eexists; split; reflexivity | right; split; reflexivity] ]
  | _ =>
      split;
      [ split; [intros H; exfalso; apply H; reflexivity
               | intros (nt' & lt' & href' & H1 & H2 & H3 & H4);
                 try (match goal with H : pystr_eqb _ _ = true |- _ => apply pystr_eqb_eq in H end);
                 congruence]
      | intros d Hd; discriminate ]
  end.

(** X4: an Amazon card gives a dict exactly when a name element whose
    stripped text is not "N/A" and a link element with an [href] are found.
    The dict then has that name, the URL "https://www.amazon.in" followed by
    the [href], the source "Amazon", and the price "₹" followed by the price
    text, or "N/A" when no price element is found. *)
Theorem amazon_card_record_kept (c : card) :
  (amazon_card_record c <> None <->
   exists nt lt href,
     find_with_fallbacks c amazon_name = Some nt /\ get_text_strip nt <> u "N/A" /\
     find_with_fallbacks c amazon_link = Some lt /\ tag_get lt (u "href") = Some href) /\
  (forall d, amazon_card_record c = Some d ->
   exists nt lt href,
     find_with_fallbacks c amazon_name = Some nt /\
     find_with_fallbacks c amazon_link = Some lt /\ tag_get lt (u "href") = Some href /\
     name d = Some (get_text_strip nt) /\
     product_url d = Some (u "https://www.amazon.in" ++ href) /\
     source d = Some (u "Amazon") /\
     ((exists pt, find_with_fallbacks c amazon_price = Some pt /\
                  price d = Some (VStr (rupee :: get_text_strip pt))) \/
      (find_with_fallbacks c amazon_price = None /\ price d = Some (VStr (u "N/A"))))).
Proof.
  unfold amazon_card_record, has_attr. cbv zeta.
  card_cases amazon_name amazon_link amazon_price; card_leaf.
Qed.

Lemma amazon_card_record_kept_witness :
  (exists nt lt href,
     find_with_fallbacks demo_card amazon_name = Some nt /\ get_text_strip nt <> u "N/A" /\
     find_with_fallbacks demo_card amazon_link = Some lt /\ tag_get lt (u "href") = Some href) /\
  amazon_card_record demo_card <> None /\
  get_text_strip (mk_tag [u " iPhone 15 "; u "(128 GB)"] []) = u "iPhone 15(128 GB)".
Proof.
  assert (H : exists nt lt href,
     find_with_fallbacks demo_card amazon_name = Some nt /\ get_text_strip nt <> u "N/A" /\
     find_with_fallbacks demo_card amazon_link = Some lt /\ tag_get lt (u "href") = Some href).
  { do 3 eexists. split; [reflexivity|]. split; [vm_compute; discriminate|].
    split; reflexivity. }
  split; [exact H|]. split; [|vm_compute; reflexivity].
  apply (proj2 (proj1 (amazon_card_record_kept demo_card))). exact H.
Defined.

(** X5: a Flipkart card gives a dict exactly when a name element whose
    stripped text is not "N/A" and a link element with an [href] are found.
    The dict then has that name, the URL "https://www.flipkart.com" followed
    by the [href], the seller and source "Flipkart", and the price "₹"
    followed by the price text, or "N/A" when no price element is found. *)
Theorem flipkart_card_record_kept (c : card) :
  (flipkart_card_record c <> None <->
   exists nt lt href,
     find_with_fallbacks c flipkart_name = Some nt /\ get_text_strip nt <> u "N/A" /\
     find_with_fallbacks c flipkart_link = Some lt /\ tag_get lt (u "href") = Some href) /\
  (forall d, flipkart_card_record c = Some d ->
   exists nt lt href,
     find_with_fallbacks c flipkart_name = Some nt /\
     find_with_fallbacks c flipkart_link = Some lt /\ tag_get lt (u "href") = Some href /\
     name d = Some (get_text_strip nt) /\
     product_url d = Some (u "https://www.flipkart.com" ++ href) /\
     source d = Some (u "Flipkart") /\ seller d = Some (u "Flipkart") /\
     ((exists pt, find_with_fallbacks c flipkart_price = Some pt /\
                  price d = Some (VStr (rupee :: get_text_strip pt))) \/
      (find_with_fallbacks c flipkart_price = None /\ price d = Some (VStr (u "N/A"))))).
Proof.
  unfold flipkart_card_record, has_attr. cbv zeta.
  card_cases flipkart_name flipkart_link flipkart_price; card_leaf.
Qed.

Lemma flipkart_card_record_kept_witness :
  (exists nt lt href,
     find_with_fallbacks demo_card flipkart_name = Some nt /\ get_text_strip nt <> u "N/A" /\
     find_with_fallbacks demo_card flipkart_link = Some lt /\ tag_get lt (u "href") = Some href) /\
  flipkart_card_record demo_card <> None.
Proof.
  assert (H : exists nt lt href,
     find_with_fallbacks demo_card flipkart_name = Some nt /\ get_text_strip nt <> u "N/A" /\
     find_with_fallbacks demo_card flipkart_link = Some lt /\ tag_get lt (u "href") = Some href).
  { do 3 eexists. split; [reflexivity|]. split; [vm_compute; discriminate|].
    split; reflexivity. }
  split; [exact H|].
  apply (proj2 (proj1 (flipkart_card_record_kept demo_card))). exact H.
Defined.

(** ** The scrapers *)














(** ** [compare_products] on named listings, and the [/search] route *)

Lemma enumerate_named k (l : list listing) :
  Forall (fun p => has_name p = true) l -> Forall named_entry (combine (seq k (List.length l)) l).
Proof.
  revert k; induction l as [|x l IH]; intros k H; simpl; [constructor|].
  inversion H as [|? ? Hx Hl]; subst. constructor; [exact Hx | apply IH; exact Hl].
Qed.

Lemma remove_nth_named pool i e :
  nth_error pool i = Some e -> Forall named_entry pool -> Forall named_entry (remove_nth i pool).
Proof.
  intros Hi Hp. destruct (remove_nth_split pool i e Hi) as (l1 & l2 & Heq & ->).
  subst pool. apply Forall_app in Hp. destruct Hp as [H1 H2]. inversion H2; subst.
  apply Forall_app; split; assumption.
Qed.

Lemma compare_loop_total amazon_list pool :
  Forall (fun p => has_name p = true) amazon_list -> Forall named_entry pool ->
  exists cs, compare_loop amazon_list pool = Ok cs.
Proof.
  revert pool; induction amazon_list as [|a rest IH]; intros pool Ha Hp; simpl; [eauto|].
  inversion Ha as [|? ? Ha1 Hrest]; subst.
  destruct (compare_one_total pool a Ha1 Hp) as [[oc pool'] E]. rewrite E. cbn [bind].
  assert (Hp' : Forall named_entry pool').
  { destruct (compare_one_cases _ _ _ E) as [Heq | (i & e & c & (Hi & _) & Heq & _)];
      injection Heq as _ ->; [exact Hp | exact (remove_nth_named _ _ _ Hi Hp)]. }
  destruct (IH pool' Hrest Hp') as [cs Hcs]. rewrite Hcs. cbn [bind]. eauto.
Qed.

Lemma compare_products_total_aux amazon_list flipkart_list :
  Forall (fun p => has_name p = true) amazon_list ->
  Forall (fun p => has_name p = true) flipkart_list ->
  exists cs, compare_products amazon_list flipkart_list = Ok cs.
Proof.
  intros Ha Hf. apply compare_loop_total; [exact Ha | apply enumerate_named; exact Hf].
Qed.

(** X8: when every listing of both lists has a [name], [compare_products]
    raises nothing (no [KeyError], and [list.remove] always finds the
    matched listing). *)
Theorem compare_products_total (amazon_list flipkart_list : list listing) :
  Forall (fun p => has_name p = true) amazon_list ->
  Forall (fun p => has_name p = true) flipkart_list ->
  exists cs, compare_products amazon_list flipkart_list = Ok cs.
Proof. apply compare_products_total_aux. Qed.

Lemma compare_products_total_witness :
  Forall (fun p => has_name p = true) [iphone_a; tv_x_a; iphone_a] /\
  Forall (fun p => has_name p = true) [iphone_b; tv_y_b] /\
  exists cs, compare_products [iphone_a; tv_x_a; iphone_a] [iphone_b; tv_y_b] = Ok cs.
Proof.
  assert (Ha : Forall (fun p => has_name p = true) [iphone_a; tv_x_a; iphone_a])
    by (repeat constructor).
  assert (Hf : Forall (fun p => has_name p = true) [iphone_b; tv_y_b]) by (repeat constructor).
  split; [exact Ha|]. split; [exact Hf|].
  exact (compare_products_total _ _ Ha Hf).
Defined.





(** ** URL de-duplication *)

Lemma dict_set_keys {V} k (v : V) d :
  map fst (dict_set k v d) = if mem k (map fst d) then map fst d else map fst d ++ [k].
Proof.
  induction d as [|[k' v'] d IH]; simpl; [reflexivity|].
  unfold mem at 1; simpl; fold (mem k (map fst d)).
  destruct (pystr_eqb k k'); simpl; [reflexivity|].
  rewrite IH. destruct (mem k (map fst d)); reflexivity.
Qed.

Lemma dict_set_In {V} k (v : V) d kv :
  In kv (dict_set k v d) -> In kv d \/ kv = (k, v).
Proof.
  induction d as [|[k' v'] d IH]; simpl; [intros [H | []]; right; congruence|].
  destruct (pystr_eqb k k') eqn:E; simpl.
  - apply pystr_eqb_eq in E; subst. intros [H | H]; [right; congruence | left; right; exact H].
  - intros [H | H]; [left; left; exact H|]. destruct (IH H); auto.
Qed.

Lemma url_fold_inv results d :
  NoDup (map fst d) ->
  (forall kv, In kv d -> product_url (snd kv) = Some (fst kv)) ->
  NoDup (map fst (fold_left url_step results d)) /\
  (forall kv, In kv (fold_left url_step results d) ->
     product_url (snd kv) = Some (fst kv) /\ (In kv d \/ In (snd kv) results)) /\
  (forall k, In k (map fst d) -> In k (map fst (fold_left url_step results d))) /\
  (forall p k, In p results -> product_url p = Some k ->
     In k (map fst (fold_left url_step results d))).
Proof.
  revert d; induction results as [|p results IH]; intros d Hnd Hurl; simpl.
  - repeat split; auto. intros _ _ [].
  - assert (Hnd1 : NoDup (map fst (url_step d p))).
    { unfold url_step. destruct (product_url p) as [k|]; [|exact Hnd].
      rewrite dict_set_keys. destruct (mem k (map fst d)) eqn:E; [exact Hnd|].
      apply NoDup_app; [exact Hnd | repeat constructor; intros []|].
      intros w Hw [<- | []]. apply mem_In in Hw. congruence. }
    assert (Hurl1 : forall kv, In kv (url_step d p) ->
              product_url (snd kv) = Some (fst kv) /\ (In kv d \/ snd kv = p)).
    { unfold url_step. intros kv Hkv. destruct (product_url p) as [k|] eqn:Ep.
      - destruct (dict_set_In _ _ _ _ Hkv) as [H | ->]; [auto | simpl; auto].
      - auto. }
    assert (Hkeys1 : forall k, In k (map fst d) -> In k (map fst (url_step d p))).
    { unfold url_step. intros k Hk. destruct (product_url p) as [k'|]; [|exact Hk].
      rewrite dict_set_keys. destruct (mem k' (map fst d)); [exact Hk|].
      apply in_or_app; left; exact Hk. }
    destruct (IH (url_step d p) Hnd1 (fun kv H => proj1 (Hurl1 kv H)))
      as (Hnd' & Hurl' & Hkeys' & Hall').
    split; [exact Hnd'|]. split; [|split].
    + intros kv Hkv. destruct (Hurl' kv Hkv) as [Hu [Hin | Hin]]; split; auto.
      destruct (Hurl1 kv Hin) as [_ [H | H]]; auto.
    + intros k Hk. apply Hkeys', Hkeys1, Hk.
    + intros q k [<- | Hq] Hk; [|exact (Hall' q k Hq Hk)].
      apply Hkeys'. unfold url_step. rewrite Hk, dict_set_keys.
      destruct (mem k (map fst d)) eqn:E; [apply mem_In; exact E|].
      apply in_or_app; right; left; reflexivity.
Qed.

Lemma NoDup_map_Some {A} (l : list A) : NoDup l -> NoDup (map Some l).
Proof.
  induction 1 as [|x l Hx Hl IH]; simpl; constructor; [|exact IH].
  intros H. apply in_map_iff in H. destruct H as (y & Hy & Hin). injection Hy as ->. contradiction.
Qed.

(** X11: the de-duplicated list of [search] holds no two dicts with the same
    [product_url]; each of its dicts is one of the input dicts and has a
    [product_url]; and every URL of the input is the URL of one of its
    dicts. *)
Theorem unique_by_url_distinct (results : list listing) :
  NoDup (map product_url (unique_by_url results)) /\
  (forall q, In q (unique_by_url results) -> In q results /\ product_url q <> None) /\
  (forall p k, In p results -> product_url p = Some k ->
     exists q, In q (unique_by_url results) /\ product_url q = Some k).
Proof.
  destruct (url_fold_inv results [] (NoDup_nil _) (fun _ H => match H with end))
    as (Hnd & Hurl & _ & Hall).
  unfold unique_by_url. split; [|split].
  - rewrite map_map.
    rewrite (map_ext_in (fun x => product_url (snd x)) (fun x => Some (fst x))).
    + rewrite <- (map_map fst Some). apply NoDup_map_Some, Hnd.
    + intros kv Hkv. exact (proj1 (Hurl kv Hkv)).
  - intros q Hq. apply in_map_iff in Hq. destruct Hq as (kv & <- & Hkv).
    destruct (Hurl kv Hkv) as [Hu [[] | Hin]]. split; [exact Hin | congruence].
  - intros p k Hp Hk. specialize (Hall p k Hp Hk). apply in_map_iff in Hall.
    destruct Hall as (kv & Hfst & Hkv). exists (snd kv). split.
    + apply in_map; exact Hkv.
    + rewrite (proj1 (Hurl kv Hkv)), Hfst. reflexivity.
Qed.

Lemma unique_by_url_distinct_witness :
  In url_x1 [url_x1; url_y; url_x2] /\ product_url url_x1 = Some (u "https://x") /\
  unique_by_url [url_x1; url_y; url_x2] = [url_x2; url_y] /\
  NoDup (map product_url (unique_by_url [url_x1; url_y; url_x2])) /\
  exists q, In q (unique_by_url [url_x1; url_y; url_x2]) /\ product_url q = Some (u "https://x").
Proof.
  destruct (unique_by_url_distinct [url_x1; url_y; url_x2]) as (H1 & _ & H3).
  split; [left; reflexivity|]. split; [reflexivity|]. split; [vm_compute; reflexivity|].
  split; [exact H1|]. apply (H3 url_x1); [left | ]; reflexivity.
Defined.

(** ** Keyword similarity *)

Lemma kw_inter_length_sym k1 k2 :
  NoDup k1 -> NoDup k2 -> List.length (kw_inter k1 k2) = List.length (kw_inter k2 k1).
Proof.
  intros H1 H2. apply Nat.le_antisymm; apply NoDup_incl_length;
    try (apply NoDup_filter; assumption);
    intros w; rewrite !kw_inter_In; tauto.
Qed.

Lemma kw_union_length_sym k1 k2 :
  NoDup k1 -> NoDup k2 -> List.length (kw_union k1 k2) = List.length (kw_union k2 k1).
Proof.
  intros H1 H2. apply Nat.le_antisymm; apply NoDup_incl_length;
    try (apply kw_union_NoDup; assumption);
    intros w; rewrite !kw_union_In; tauto.
Qed.

(** X12: the similarity of two names does not depend on which one is the
    Amazon name. *)
Theorem similarity_symmetric (name_a name_f : pystr) :
  similarity (get_keywords name_a) (get_keywords name_f) =
  similarity (get_keywords name_f) (get_keywords name_a).
Proof.
  unfold similarity.
  rewrite (kw_inter_length_sym _ _ (get_keywords_NoDup name_a) (get_keywords_NoDup name_f)).
  rewrite (kw_union_length_sym _ _ (get_keywords_NoDup name_a) (get_keywords_NoDup name_f)).
  reflexivity.
Qed.

Lemma pos_of_nat_Z n : (0 < n)%nat -> Zpos (Pos.of_nat n) = Z.of_nat n.
Proof.
  destruct n as [|n]; [lia|]. intros _. rewrite <- Pos.of_nat_succ, Zpos_P_of_succ_nat. lia.
Qed.

Lemma filter_all {A} (f : A -> bool) l : (forall x, In x l -> f x = true) -> filter f l = l.
Proof.
  induction l as [|x l IH]; intros H; simpl; [reflexivity|].
  rewrite (H x (or_introl eq_refl)). f_equal. apply IH. intros y Hy; apply H; right; exact Hy.
Qed.

Lemma filter_none {A} (f : A -> bool) l : (forall x, In x l -> f x = false) -> filter f l = [].
Proof.
  induction l as [|x l IH]; intros H; simpl; [reflexivity|].
  rewrite (H x (or_introl eq_refl)). apply IH. intros y Hy; apply H; right; exact Hy.
Qed.

(** X13: a similarity lies between 0 and 1, and a keyword set is similar to
    itself with similarity 1 (0 when it is empty). *)
Theorem similarity_bounds :
  (forall akw fkw, (0 <= similarity akw fkw <= 1)%Q) /\
  (forall kw, (similarity kw kw == if Nat.eqb (List.length kw) 0 then 0 else 1)%Q).
Proof.
  split.
  - intros akw fkw. split; [apply similarity_nonneg|].
    unfold similarity.
    assert (Hle : (List.length (kw_inter akw fkw) <= List.length (kw_union akw fkw))%nat).
    { unfold kw_inter, kw_union. rewrite length_app.
      pose proof (filter_length_le (fun w => mem w fkw) akw). lia. }
    destruct (Nat.ltb 0 _) eqn:E.
    + apply Nat.ltb_lt in E. unfold Qle; simpl. rewrite (pos_of_nat_Z _ E). lia.
    + unfold Qle; simpl; lia.
  - intros kw. unfold similarity.
    assert (Hi : kw_inter kw kw = kw).
    { apply filter_all. intros x Hx; apply mem_In; exact Hx. }
    assert (Hu : kw_union kw kw = kw).
    { unfold kw_union. rewrite filter_none, app_nil_r; [reflexivity|].
      intros x Hx. apply negb_false_iff, mem_In; exact Hx. }
    rewrite Hi, Hu. destruct (List.length kw) as [|n] eqn:E; [reflexivity|].
    change (Nat.ltb 0 (S n)) with true. change (Nat.eqb (S n) 0) with false. cbv iota.
    unfold Qeq; cbn [Qnum Qden]. rewrite (pos_of_nat_Z (S n)) by lia. lia.
Qed.

(** ** Keywords *)







(** ** What a comparison holds *)

Lemma compare_one_some pool a c pool' :
  compare_one pool a = Ok (Some c, pool') ->
  amazon_product c = a /\
  exists pa pb,
    clean_price (get_price a) = Ok pa /\
    clean_price (get_price (snd (flipkart_product c))) = Ok pb /\
    pa <> PInf /\ pb <> PInf /\
    (1 # 5 < sim_of (kw_of a) (flipkart_product c))%Q /\
    best_deal c = deal_of pa pb /\
    price_difference c = app_currency_prefix ++ format_money (py_abs (py_sub pa pb)).
Proof.
  unfold compare_one. destruct (name a) as [n|] eqn:Ea; [|discriminate].
  rewrite <- (kw_of_name a n Ea).
  destruct (scan (kw_of a) pool None 0) as [[bm hs]|e] eqn:Hs; cbn [bind]; [|discriminate].
  apply scan_cases in Hs. cbv beta iota.
  destruct Hs as [[Heq _] | (i & e & Heq & _ & _)]; injection Heq as -> ->; [discriminate|].
  destruct (qltb (1 # 5) (sim_of (kw_of a) e)) eqn:Hq; [|discriminate].
  destruct (clean_price (get_price a)) as [pa|x] eqn:Hpa; cbn [bind]; [|discriminate].
  destruct (clean_price (get_price (snd e))) as [pb|x] eqn:Hpb; cbn [bind]; [|discriminate].
  destruct (is_pinf pa) eqn:Pa; [discriminate|]. destruct (is_pinf pb) eqn:Pb; [discriminate|].
  cbn [negb andb]. destruct (py_remove (snd e) pool) as [r|x]; cbn [bind]; [|discriminate].
  intros H; injection H as <- _. split; [reflexivity|]. exists pa, pb. cbn.
  repeat split; auto using is_pinf_false. apply qltb_lt; exact Hq.
Qed.

Lemma compare_loop_some amazon_list pool cs :
  compare_loop amazon_list pool = Ok cs ->
  subseq (map amazon_product cs) amazon_list /\
  forall c, In c cs -> exists pool pool', compare_one pool (amazon_product c) = Ok (Some c, pool').
Proof.
  revert pool cs; induction amazon_list as [|a rest IH]; intros pool cs H; simpl in H.
  - injection H as <-. split; [constructor | intros _ []].
  - destruct (compare_one pool a) as [[oc pool']|e] eqn:E; cbn [bind] in H; [|discriminate].
    destruct (compare_loop rest pool') as [cs'|e] eqn:E'; cbn [bind] in H; [|discriminate].
    injection H as <-. destruct (IH _ _ E') as [Hsub Hin].
    destruct oc as [c|].
    + destruct (compare_one_some _ _ _ _ E) as [Hac _].
      split.
      * simpl. rewrite Hac. constructor; exact Hsub.
      * intros c' [<- | Hc']; [rewrite Hac; eauto | exact (Hin c' Hc')].
    + split; [constructor; exact Hsub | exact Hin].
Qed.

Lemma lstrip_snoc l c : py_isspace c = false -> lstrip (l ++ [c]) = lstrip l ++ [c].
Proof.
  intros Hc. induction l as [|x l IH]; simpl; [rewrite Hc; reflexivity|].
  destruct (py_isspace x); [exact IH | reflexivity].
Qed.

Lemma strip_cons c l : py_isspace c = false -> exists l', strip (c :: l) = c :: l'.
Proof.
  intros Hc. unfold strip. simpl lstrip at 2. rewrite Hc. simpl rev at 2.
  rewrite lstrip_snoc by exact Hc. rewrite rev_app_distr. simpl. eauto.
Qed.

(** Any text that starts with the three characters of the [f"â‚¹..."]
    prefix is no price for [clean_price]. *)
Lemma clean_price_mojibake x : clean_price (VStr (app_currency_prefix ++ x)) = Ok PInf.
Proof.
  unfold clean_price. change (app_currency_prefix ++ x) with (226 :: 8218 :: 185 :: x)%N.
  replace (pystr_eqb (226 :: 8218 :: 185 :: x)%N (u "N/A")) with false by reflexivity.
  unfold cleaned.
  change (filter (fun c => negb (price_junk c)) (226 :: 8218 :: 185 :: x)%N)
    with (226 :: 8218 :: 185 :: filter (fun c => negb (price_junk c)) x)%N.
  destruct (strip_cons 226 (8218 :: 185 :: filter (fun c => negb (price_junk c)) x)%N eq_refl)
    as [l ->].
  unfold py_float_str. destruct (strip_cons 226 l eq_refl) as [l' ->]. reflexivity.
Qed.

(** X15: [compare_products] compares the Amazon listings in their order, each
    at most once: the Amazon listings of the comparisons form a subsequence
    of [amazon_list]. *)
Theorem compare_products_amazon_order (amazon_list flipkart_list : list listing)
    (cs : list comparison) :
  compare_products amazon_list flipkart_list = Ok cs ->
  subseq (map amazon_product cs) amazon_list.
Proof. intros H. exact (proj1 (compare_loop_some _ _ _ H)). Qed.

Lemma compare_products_amazon_order_witness :
  compare_products [tv_x_a; iphone_a; tv_x_na] [iphone_b; tv_y_b] =
    Ok [mk_comparison tv_x_a (1%nat, tv_y_b) (app_currency_prefix ++ u "50.00") (u "Flipkart");
        mk_comparison iphone_a (0%nat, iphone_b) (app_currency_prefix ++ u "1,499.00") (u "Flipkart")] /\
  subseq [tv_x_a; iphone_a] [tv_x_a; iphone_a; tv_x_na].
Proof.
  assert (H : compare_products [tv_x_a; iphone_a; tv_x_na] [iphone_b; tv_y_b] =
    Ok [mk_comparison tv_x_a (1%nat, tv_y_b) (app_currency_prefix ++ u "50.00") (u "Flipkart");
        mk_comparison iphone_a (0%nat, iphone_b) (app_currency_prefix ++ u "1,499.00") (u "Flipkart")])
    by (vm_compute; reflexivity).
  split; [exact H|]. exact (compare_products_amazon_order _ _ _ H).
Defined.



(** X17: the [price_difference] of a comparison is never read back as a price:
    [clean_price] gives +inf for it, since U+00E2 of the prefix survives the
    cleaning and [float] rejects it. *)
Theorem price_difference_not_a_price (amazon_list flipkart_list : list listing)
    (cs : list comparison) :
  compare_products amazon_list flipkart_list = Ok cs ->
  Forall (fun c => clean_price (VStr (price_difference c)) = Ok PInf) cs.
Proof.
  intros H. apply Forall_forall. intros c Hc.
  destruct (proj2 (compare_loop_some _ _ _ H) c Hc) as (pool & pool' & E).
  destruct (proj2 (compare_one_some _ _ _ _ E)) as (pa & pb & _ & _ & _ & _ & _ & _ & ->).
  apply clean_price_mojibake.
Qed.

Lemma price_difference_not_a_price_witness :
  compare_products demo_amazon demo_flipkart = Ok demo_comparisons /\
  Forall (fun c => clean_price (VStr (price_difference c)) = Ok PInf) demo_comparisons.
Proof.
  assert (H : compare_products demo_amazon demo_flipkart = Ok demo_comparisons)
    by (vm_compute; reflexivity).
  split; [exact H|]. exact (price_difference_not_a_price _ _ _ H).
Defined.

(** ** Prices written with [₹] and [",.2f"] *)

































